(** * auto_uploader: the event-to-remote reconciliation engine

    A shallow embedding of [src/network_utils.py], [src/file_utils.py],
    [src/drive_utils.py] and the [Watcher] class of [src/watcher.py],
    with the properties of the specification that concern them.

    The Python code talks to three things outside itself: the local file
    system, the network (a reachability probe and the remote storage
    service) and the logger.  Here every function is a computation in a
    state-and-exception monad over a [World]; besides its result and the
    new world, a run yields the list of effects it performed, in order. *)

From Stdlib Require Import ZArith Ascii String.
From stdpp Require Import gmap strings list fin_maps pretty.

#[local] Set Warnings "-register-all".
#[local] Open Scope string_scope.
#[local] Open Scope list_scope.

(** * Python values, exceptions and string primitives *)

Module Py.

(** The classes of [Exception] the program can meet.  [OSError] stands for
    its subclasses too ([FileNotFoundError], [PermissionError],
    [IsADirectoryError], [FileExistsError], socket errors).  Signals that
    are not exceptions in Python's sense ([KeyboardInterrupt], [SystemExit])
    are no part of the model. *)
Inductive exn :=
| OSError
| UnicodeDecodeError
| JSONDecodeError
| AttributeError
| TypeError
| KeyError
| IndexError
| HttpError (status : Z)
| OtherError (msg : string).

(** [except json.JSONDecodeError], [except HttpError], [except OSError];
    [except Exception] takes every [exn]. *)
Definition is_JSONDecodeError (e : exn) : bool :=
  match e with JSONDecodeError => true | _ => false end.

Definition is_HttpError (e : exn) : bool :=
  match e with HttpError _ => true | _ => false end.

Definition is_OSError (e : exn) : bool :=
  match e with OSError => true | _ => false end.

(** The values that travel through JSON documents and service replies:
    [None], booleans, numbers (integers stand for all of them; only
    whether a number is zero is ever looked at), strings, lists and
    dictionaries with string keys. *)
Inductive value :=
| JNull
| JBool (b : bool)
| JNum (z : Z)
| JStr (s : string)
| JArr (l : list value)
| JObj (m : gmap string value).

Definition None_ : value := JNull.

(** [bool(v)], as [if v:] takes it. *)
Definition truthy (v : value) : bool :=
  match v with
  | JNull => false
  | JBool b => b
  | JNum z => negb (z =? 0)%Z
  | JStr s => negb (String.eqb s "")
  | JArr l => match l with [] => false | _ :: _ => true end
  | JObj m => negb (bool_decide (dom m = ∅))
  end.

(** [v.get(k, d)]: only dictionaries have a [get]. *)
Definition get_default (v : value) (k : string) (d : value) : exn + value :=
  match v with
  | JObj m => inr (default d (m !! k))
  | _ => inl AttributeError
  end.

(** [v.get(k)] *)
Definition get (v : value) (k : string) : exn + value :=
  get_default v k None_.

(** [v[0]] *)
Definition getitem0 (v : value) : exn + value :=
  match v with
  | JArr (x :: _) => inr x
  | JArr [] => inl IndexError
  | JStr (String c _) => inr (JStr (String c ""))
  | JStr "" => inl IndexError
  | JObj _ => inl KeyError
  | _ => inl TypeError
  end.

(** [v[k]] for a string [k] *)
Definition getitem (v : value) (k : string) : exn + value :=
  match v with
  | JObj m => match m !! k with Some x => inr x | None => inl KeyError end
  | _ => inl TypeError
  end.

(** [v[k] = x] for a string [k] *)
Definition setitem (v : value) (k : string) (x : value) : exn + value :=
  match v with
  | JObj m => inr (JObj (<[k := x]> m))
  | _ => inl TypeError
  end.

(** [s.startswith(p)] *)
Fixpoint startswith (p s : string) : bool :=
  match p, s with
  | "", _ => true
  | String a p', String b s' => Ascii.eqb a b && startswith p' s'
  | String _ _, "" => false
  end.

(** [p in s] for two strings *)
Fixpoint contains (p s : string) : bool :=
  startswith p s ||
  match s with
  | "" => false
  | String _ s' => contains p s'
  end.

(** [s.endswith(p)] *)
Definition endswith (p s : string) : bool :=
  startswith (String.rev p) (String.rev s).

(** [k in v] for a string [k]: key membership in a dictionary, element
    membership in a list, substring in a string. *)
Definition contains_key (v : value) (k : string) : exn + bool :=
  match v with
  | JObj m => inr (bool_decide (is_Some (m !! k)))
  | JArr l =>
      inr (existsb (fun x => match x with JStr s => String.eqb s k | _ => false end) l)
  | JStr s => inr (contains k s)
  | _ => inl TypeError
  end.

(** [del v[k]] for a string [k] *)
Definition delitem (v : value) (k : string) : exn + value :=
  match v with
  | JObj m => match m !! k with
              | Some _ => inr (JObj (delete k m))
              | None => inl KeyError
              end
  | _ => inl TypeError
  end.

(** ** Text

    A [str] is a sequence of code points, here numbers.  A [string] is a
    sequence of bytes: where one stands for a [str], in a path, a name or
    a [JStr], it holds the UTF-8 encoding of it.  A file holds bytes, and
    reading it as text decodes them. *)

Section text.
#[local] Open Scope N_scope.

(** The six bits of a continuation byte, [10xxxxxx]. *)
Definition continuation (b : ascii) : option N :=
  let n := N_of_ascii b in
  if (0x80 <=? n) && (n <? 0xC0) then Some (n - 0x80) else None.

(** [bytes.decode("utf-8")], [None] standing for [UnicodeDecodeError]:
    only the shortest encoding of a code point is accepted, and neither a
    surrogate nor a code point past U+10FFFF. *)
Fixpoint utf8_decode (s : string) : option (list N) :=
  match s with
  | "" => Some []
  | String a s1 =>
      let n := N_of_ascii a in
      if n <? 0x80 then cons n <$> utf8_decode s1
      else if n <? 0xC2 then None
      else if n <? 0xE0 then
        match s1 with
        | String b s2 =>
            match continuation b with
            | Some x => cons ((n - 0xC0) * 64 + x) <$> utf8_decode s2
            | None => None
            end
        | _ => None
        end
      else if n <? 0xF0 then
        match s1 with
        | String b (String c s3) =>
            match continuation b, continuation c with
            | Some x, Some y =>
                let p := (n - 0xE0) * 4096 + x * 64 + y in
                if (p <? 0x800) || (0xD800 <=? p) && (p <? 0xE000) then None
                else cons p <$> utf8_decode s3
            | _, _ => None
            end
        | _ => None
        end
      else if n <? 0xF5 then
        match s1 with
        | String b (String c (String d s4)) =>
            match continuation b, continuation c, continuation d with
            | Some x, Some y, Some z =>
                let p := (n - 0xF0) * 262144 + x * 4096 + y * 64 + z in
                if (p <? 0x10000) || (0x110000 <=? p) then None
                else cons p <$> utf8_decode s4
            | _, _, _ => None
            end
        | _ => None
        end
      else None
  end.

(** The UTF-8 encoding of one code point (of one that is no surrogate:
    [utf8_decode] yields no other). *)
Definition utf8_encode_point (p : N) : string :=
  let byte (n : N) := ascii_of_N n in
  if p <? 0x80 then String (byte p) ""
  else if p <? 0x800 then
    String (byte (0xC0 + p / 64)) (String (byte (0x80 + p mod 64)) "")
  else if p <? 0x10000 then
    String (byte (0xE0 + p / 4096))
      (String (byte (0x80 + (p / 64) mod 64)) (String (byte (0x80 + p mod 64)) ""))
  else
    String (byte (0xF0 + p / 262144))
      (String (byte (0x80 + (p / 4096) mod 64))
         (String (byte (0x80 + (p / 64) mod 64)) (String (byte (0x80 + p mod 64)) ""))).

(** [s.encode("utf-8")] *)
Fixpoint utf8_encode (s : list N) : string :=
  match s with
  | [] => ""
  | p :: s' => (utf8_encode_point p ++ utf8_encode s')%string
  end.

(** What a file opened in text mode with the default [newline=None]
    makes of the line ends it reads: [\r\n] and [\r] become [\n]. *)
Fixpoint universal_newlines (s : list N) : list N :=
  match s with
  | [] => []
  | c :: s' =>
      if c =? 13 then
        10 :: match s' with
              | d :: s'' => if d =? 10 then universal_newlines s'' else universal_newlines s'
              | [] => []
              end
      else c :: universal_newlines s'
  end.

(** [c.isspace()] for one character: the white space of Unicode, which
    [str.strip()] removes. *)
Definition isspace (c : N) : bool :=
  (9 <=? c) && (c <=? 13) || (28 <=? c) && (c <=? 32)
  || (c =? 0x85) || (c =? 0xA0) || (c =? 0x1680)
  || (0x2000 <=? c) && (c <=? 0x200A)
  || (c =? 0x2028) || (c =? 0x2029) || (c =? 0x202F) || (c =? 0x205F)
  || (c =? 0x3000).

Fixpoint lstrip (s : list N) : list N :=
  match s with
  | [] => []
  | c :: s' => if isspace c then lstrip s' else s
  end.

Fixpoint rstrip (s : list N) : list N :=
  match s with
  | [] => []
  | c :: s' =>
      match rstrip s' with
      | [] => if isspace c then [] else [c]
      | t => c :: t
      end
  end.

(** [s.strip()] *)
Definition strip (s : list N) : list N := rstrip (lstrip s).

End text.

(** The text after the last slash of [p], when [p] has a slash. *)
Fixpoint after_last_slash (p : string) : option string :=
  match p with
  | "" => None
  | String c p' =>
      match after_last_slash p' with
      | Some t => Some t
      | None => if Ascii.eqb c "/" then Some p' else None
      end
  end.

(** [os.path.basename(p)]: [p[p.rfind('/') + 1:]] *)
Definition basename (p : string) : string :=
  default p (after_last_slash p).

(** [os.path.join(a, b)] *)
Definition join (a b : string) : string :=
  if startswith "/" b then b
  else if String.eqb a "" || endswith "/" a then (a ++ b)%string
  else (a ++ "/" ++ b)%string.

End Py.

(** * The world outside the program, and computations over it *)

Module Sys.
Import Py.

(** What is found at a path of the local file system. *)
Inductive content :=
| Directory                (* a directory: [open] raises [IsADirectoryError] *)
| Locked                   (* a file that may not be read: [PermissionError] *)
| Binary                   (* bytes that are no text: reading in text mode raises [UnicodeDecodeError] *)
| Text (s : string)        (* the bytes [s], which are no JSON document: [json.load] raises [JSONDecodeError] *)
| Json (j : value).        (* the text [json.dump] writes for [j]; [json.load] gives [j] back *)

(** [MediaFileUpload(path, resumable=True)]: the open file handed to the
    service, with what it holds when it is opened. *)
Record media := { filename : string; body : content }.

(** The calls on [service.files()] the program makes, each sent with
    [.execute()]. *)
Inductive request :=
| FilesList (q fields : string)
| FilesCreate (body : value) (media_body : option media) (fields : string)
| FilesUpdate (fileId : value) (media_body : media)
| FilesDelete (fileId : value).

Inductive level := INFO | WARNING | ERROR.

(** The lines the program logs, one constructor per format string. *)
Inductive message :=
| CheckingConnectivity
| ConnectionDetected
| NoConnectionDetected
| CorruptedJson (mapping_path : string)
| MappingSaved (file_name : string) (file_id : value)
| FailedToWriteMapping (e : exn)
| DoesNotExist (mapping_path : string)
| ErrorReadingFileMapping (e : exn)
| ErrorReadingMappingFile (e : exn)
| RemovedFileMapping (file_name : string)
| ErrorWritingMappingFile (e : exn)
| NotFoundInFileMapping (file_name : string)
| FailedToListFolders (e : exn)
| FoundExistingFolder (folder_name : string) (folder_id : value)
| CreatedNewFolder (folder_name : string) (folder_id : value)
| FailedToCreateFolder (folder_name : string) (e : exn)
| CannotUploadNoConnection (file_path : string)
| Updated (file_name : string)
| Uploaded (file_name : string)
| ErrorDuringUpload (e : exn)
| NotFoundInDriveMapping (file_name : string)
| Deleting (file_name : string) (file_id : value)
| DeletedFromDrive (file_name : string)
| HttpErrorDeleting (file_name : string) (e : exn)
| UnexpectedErrorDeleting (file_name : string) (e : exn)
| FailedToReadFolderId (e : exn)
| FailedToSaveFolderId (e : exn).

(** What a run does to the outside, as it happens. *)
Inductive effect :=
| Probe                        (* the connection attempt to 8.8.8.8:53 *)
| PathExists (path : string)   (* [os.path.exists] *)
| OpenRead (path : string)     (* [open(path, "r")] and [open(path, "rb")] *)
| OpenWrite (path : string)    (* [open(path, "w")] *)
| MakeDirs (path : string)     (* [os.makedirs(path, exist_ok=True)] *)
| Remote (r : request)         (* a call sent to the remote service *)
| Log (l : level) (m : message).

Section Monad.
Context {S : Type}.

(** [connected]: whether the probe would get through; [fs]: the files;
    [readonly]: the paths that may not be written or created; [remote]: the
    state of the remote service. *)
Record World := {
  connected : bool;
  fs : gmap string content;
  readonly : gset string;
  remote : S
}.

Definition set_fs (f : gmap string content -> gmap string content) (w : World) : World :=
  {| connected := connected w; fs := f (fs w); readonly := readonly w; remote := remote w |}.

Definition set_remote (s : S) (w : World) : World :=
  {| connected := connected w; fs := fs w; readonly := readonly w; remote := s |}.

(** A computation: from a world to a result (an exception raised or a
    value returned), the world it leaves and the effects in order. *)
Definition M (A : Type) : Type := World -> (exn + A) * World * list effect.

Definition ret {A} (a : A) : M A := fun w => (inr a, w, []).

Definition raise {A} (e : exn) : M A := fun w => (inl e, w, []).

Definition bind {A B} (m : M A) (k : A -> M B) : M B := fun w =>
  match m w with
  | (inl e, w1, t1) => (inl e, w1, t1)
  | (inr a, w1, t1) => let '(r, w2, t2) := k a w1 in (r, w2, t1 ++ t2)
  end.

(** [try: m except Exception as e: handler e] *)
Definition try {A} (m : M A) (handler : exn -> M A) : M A := fun w =>
  match m w with
  | (inl e, w1, t1) => let '(r, w2, t2) := handler e w1 in (r, w2, t1 ++ t2)
  | done => done
  end.

(** The result of a pure operation that may raise. *)
Definition lift {A} (r : exn + A) : M A := fun w => (r, w, []).

Definition emit (e : effect) : M unit := fun w => (inr tt, w, [e]).

Definition log (l : level) (m : message) : M unit := emit (Log l m).

End Monad.

Arguments World : clear implicits.
Arguments M : clear implicits.

Declare Scope py_scope.
Delimit Scope py_scope with py.
Notation "'let*' x ':=' m 'in' k" := (bind m (fun x => k))
  (at level 10, x name, m at level 100, k at level 200) : py_scope.
Notation "m ';;' k" := (bind m (fun _ => k))
  (at level 100, k at level 200, right associativity) : py_scope.

Section Primitives.
Context {S : Type}.
#[local] Open Scope py_scope.

(** [socket.create_connection(("8.8.8.8", 53), timeout=3)] *)
Definition create_connection : M S unit := fun w =>
  (if connected w then inr tt else inl OSError, w, [Probe]).

(** [os.path.exists(path)] *)
Definition path_exists (path : string) : M S bool := fun w =>
  (inr (bool_decide (is_Some (fs w !! path))), w, [PathExists path]).

(** [open(path, "r")] and [open(path, "rb")]: the handle stands for what
    the file holds. *)
Definition open_read (path : string) : M S content := fun w =>
  (match fs w !! path with
   | None | Some Directory | Some Locked => inl OSError
   | Some c => inr c
   end, w, [OpenRead path]).

(** [json.load(f)] *)
Definition json_load (f : content) : exn + value :=
  match f with
  | Json j => inr j
  | Text _ => inl JSONDecodeError
  | Binary => inl UnicodeDecodeError
  | Directory | Locked => inl OSError
  end.

(** [open(path, "w")]: the file is created or emptied. *)
Definition open_write (path : string) : M S unit := fun w =>
  if bool_decide (path ∈ readonly w) then (inl OSError, w, [OpenWrite path])
  else match fs w !! path with
       | Some Directory => (inl OSError, w, [OpenWrite path])
       | _ => (inr tt, set_fs (insert path (Text "")) w, [OpenWrite path])
       end.

(** [json.dump(j, f)] on the file opened at [path] *)
Definition json_dump (j : value) (path : string) : M S unit := fun w =>
  (inr tt, set_fs (insert path (Json j)) w, []).

(** [f.write(v)] on the file opened at [path]: only a [str] can be
    written; its bytes are its UTF-8 encoding (line ends are written as
    they are, as on a POSIX system). *)
Definition write (path : string) (v : value) : M S unit := fun w =>
  match v with
  | JStr s => (inr tt, set_fs (insert path (Text s)) w, [])
  | _ => (inl TypeError, w, [])
  end.

(** [os.makedirs(path, exist_ok=True)] *)
Definition makedirs (path : string) : M S unit := fun w =>
  match fs w !! path with
  | Some Directory => (inr tt, w, [MakeDirs path])
  | Some _ => (inl OSError, w, [MakeDirs path])
  | None =>
      if bool_decide (path ∈ readonly w) then (inl OSError, w, [MakeDirs path])
      else (inr tt, set_fs (insert path Directory) w, [MakeDirs path])
  end.

(** [MediaFileUpload(path, resumable=True)]: its constructor opens the
    file, [open(path, "rb")]. *)
Definition MediaFileUpload (path : string) : M S media :=
  let* c := open_read path in
  ret {| filename := path; body := c |}.

(** The remote service, as the client handle [service] gives access to
    it: a reply (or an exception) and a new state for every request. *)
Definition Service : Type := request -> S -> (exn + value) * S.

(** [service.files().<call>(...).execute()] *)
Definition execute (service : Service) (r : request) : M S value := fun w =>
  let '(reply, s) := service r (remote w) in
  (reply, set_remote s w, [Remote r]).

End Primitives.

Arguments Service : clear implicits.

(** The requests sent during a run, in order. *)
Fixpoint remote_calls (t : list effect) : list request :=
  match t with
  | [] => []
  | Remote r :: t' => r :: remote_calls t'
  | _ :: t' => remote_calls t'
  end.

(** The paths opened or tested during a run. *)
Fixpoint touched (t : list effect) : list string :=
  match t with
  | [] => []
  | PathExists p :: t' | OpenRead p :: t' | OpenWrite p :: t' | MakeDirs p :: t' =>
      p :: touched t'
  | _ :: t' => touched t'
  end.

(** The lines logged during a run. *)
Fixpoint logged (t : list effect) : list (level * message) :=
  match t with
  | [] => []
  | Log l m :: t' => (l, m) :: logged t'
  | _ :: t' => logged t'
  end.

End Sys.

Import Py Sys.
#[local] Open Scope py_scope.

(** * src/network_utils.py *)

Section network_utils.
Context {S : Type}.

Definition is_internet_connected : M S bool :=
  try (log INFO CheckingConnectivity;;
       create_connection;;
       log INFO ConnectionDetected;;
       ret true)
      (fun e =>
         if is_OSError e then log WARNING NoConnectionDetected;; ret false
         else raise e).

End network_utils.

(** * src/file_utils.py *)

Section file_utils.
Context {S : Type}.

Definition save_file_mapping (mapping_path file_name : string) (file_id : value) : M S unit :=
  let* present := path_exists mapping_path in
  let* mapping :=
    (if present then
       try (let* f := open_read mapping_path in lift (json_load f))
           (fun e =>
              if is_JSONDecodeError e then
                log WARNING (CorruptedJson mapping_path);; ret (JObj ∅)
              else raise e)
     else ret (JObj ∅)) in
  let* mapping := lift (setitem mapping file_name file_id) in
  try (open_write mapping_path;;
       json_dump mapping mapping_path;;
       log INFO (MappingSaved file_name file_id))
      (fun e => log ERROR (FailedToWriteMapping e)).

Definition get_file_id (mapping_path file_name : string) : M S value :=
  let* present := path_exists mapping_path in
  if negb present then
    log WARNING (DoesNotExist mapping_path);; ret None_
  else
    try (let* f := open_read mapping_path in
         let* mapping := lift (json_load f) in
         lift (get mapping file_name))
        (fun e => log ERROR (ErrorReadingFileMapping e);; ret None_).

Definition remove_file_mapping (mapping_path file_name : string) : M S unit :=
  let* present := path_exists mapping_path in
  if negb present then
    log WARNING (DoesNotExist mapping_path)
  else
    let* loaded :=
      try (let* f := open_read mapping_path in
           let* mapping := lift (json_load f) in
           ret (Some mapping))
          (fun e => log ERROR (ErrorReadingMappingFile e);; ret None) in
    match loaded with
    | None => ret tt
    | Some mapping =>
        let* found := lift (contains_key mapping file_name) in
        if found then
          let* mapping := lift (delitem mapping file_name) in
          try (open_write mapping_path;;
               json_dump mapping mapping_path;;
               log INFO (RemovedFileMapping file_name))
              (fun e => log ERROR (ErrorWritingMappingFile e))
        else
          log WARNING (NotFoundInFileMapping file_name)
    end.

End file_utils.

(** * src/drive_utils.py *)

Section drive_utils.
Context {S : Type}.

Definition folder_mime : string := "application/vnd.google-apps.folder".

(** The [q] of the list call:
    [f"name='{folder_name}' and mimeType='application/vnd.google-apps.folder' and trashed=false"] *)
Definition folder_query (folder_name : string) : string :=
  ("name='" ++ folder_name ++ "' and mimeType='" ++ folder_mime
     ++ "' and trashed=false")%string.

Definition list_folders (folder_name : string) : request :=
  FilesList (folder_query folder_name) "files(id, name)".

(** [create(body={"name": folder_name, "mimeType": ...folder}, fields="id")] *)
Definition create_folder (folder_name : string) : request :=
  FilesCreate
    (JObj (<["name" := JStr folder_name]> (<["mimeType" := JStr folder_mime]> ∅)))
    None "id".

(** [create(body={"name": file_name, "parents": [folder_id]}, media_body=media, fields="id")] *)
Definition create_file (file_name : string) (folder_id : value) (m : media) : request :=
  FilesCreate
    (JObj (<["name" := JStr file_name]> (<["parents" := JArr [folder_id]]> ∅)))
    (Some m) "id".

Definition get_or_create_drive_folder (service : Service S) (folder_name : string)
  : M S value :=
  let* listed :=
    try (let* results := execute service (list_folders folder_name) in
         let* files := lift (get_default results "files" (JArr [])) in
         ret (Some files))
        (fun e => log ERROR (FailedToListFolders e);; ret None) in
  match listed with
  | None => ret None_
  | Some files =>
      if truthy files then
        let* first := lift (getitem0 files) in
        let* folder_id := lift (getitem first "id") in
        log INFO (FoundExistingFolder folder_name folder_id);;
        ret folder_id
      else
        try (let* folder := execute service (create_folder folder_name) in
             let* folder_id := lift (get folder "id") in
             log INFO (CreatedNewFolder folder_name folder_id);;
             ret folder_id)
            (fun e => log ERROR (FailedToCreateFolder folder_name e);; ret None_)
  end.

Definition upload_file (service : Service S) (folder_id : value)
    (mapping_path file_path : string) : M S unit :=
  let* up := is_internet_connected in
  if negb up then
    log ERROR (CannotUploadNoConnection file_path)
  else
    let file_name := basename file_path in
    let* media := MediaFileUpload file_path in
    let* existing_file_id := get_file_id mapping_path file_name in
    try (if truthy existing_file_id then
           execute service (FilesUpdate existing_file_id media);;
           log INFO (Updated file_name)
         else
           let* file := execute service (create_file file_name folder_id media) in
           let* file_id := lift (get file "id") in
           save_file_mapping mapping_path file_name file_id;;
           log INFO (Uploaded file_name))
        (fun e => log ERROR (ErrorDuringUpload e)).

Definition delete_file_from_drive (service : Service S)
    (mapping_path file_name : string) : M S unit :=
  let* file_id := get_file_id mapping_path file_name in
  if negb (truthy file_id) then
    log WARNING (NotFoundInDriveMapping file_name)
  else
    try (log INFO (Deleting file_name file_id);;
         execute service (FilesDelete file_id);;
         remove_file_mapping mapping_path file_name;;
         log INFO (DeletedFromDrive file_name))
        (fun e =>
           if is_HttpError e then log ERROR (HttpErrorDeleting file_name e)
           else log ERROR (UnexpectedErrorDeleting file_name e)).

End drive_utils.

(** * src/watcher.py *)

Module Watcher.
Section Watcher.
Context {S : Type}.

(** The directory of [watcher.py], [os.path.dirname(os.path.abspath(__file__))]. *)
Variable BASE_DIR : string.

(** The text of the JSON document [json.dump] writes for a value, as
    bytes; nothing is assumed of it. *)
Variable json_text : value -> string.

(** The attributes of a [Watcher] object; [folder_id] is the one that is
    assigned after [__init__]. *)
Record t := {
  service : Service S;
  watch_folder : string;
  base_dir : string;
  mapping_path : string;
  folder_id_file : string;
  folder_id : value
}.

Definition set_folder_id (v : value) (self : t) : t :=
  {| service := service self; watch_folder := watch_folder self;
     base_dir := base_dir self; mapping_path := mapping_path self;
     folder_id_file := folder_id_file self; folder_id := v |}.

(** [Watcher.__init__], [base_dir] being [None] when it is not given. *)
Definition init (service : Service S) (watch_folder : string)
    (base_dir : option string) : t :=
  let base_dir :=
    match base_dir with
    | Some d => if String.eqb d "" then BASE_DIR else d
    | None => BASE_DIR
    end in
  {| service := service; watch_folder := watch_folder; base_dir := base_dir;
     mapping_path := join base_dir "file_map.json";
     folder_id_file := join base_dir "folder_id.txt";
     folder_id := None_ |}.

(** The text in a file of the given bytes, read with
    [encoding="utf-8"] and the default [newline=None]. *)
Definition decode (bytes : string) : exn + list N :=
  match utf8_decode bytes with
  | Some s => inr (universal_newlines s)
  | None => inl UnicodeDecodeError
  end.

(** [f.read()] on the file opened by
    [open(self.folder_id_file, "r", encoding="utf-8")] *)
Definition read (f : content) : exn + list N :=
  match f with
  | Text s => decode s
  | Json j => decode (json_text j)
  | Binary => inl UnicodeDecodeError
  | Directory | Locked => inl OSError
  end.

Definition get_or_create_folder_id (self : t) : M S (value * t) :=
  let* present := path_exists (folder_id_file self) in
  let* cached :=
    (if present then
       try (let* f := open_read (folder_id_file self) in
            let* text := lift (read f) in
            let folder_id := JStr (utf8_encode (strip text)) in
            if truthy folder_id then ret (Some folder_id) else ret None)
           (fun e => log ERROR (FailedToReadFolderId e);; ret None)
     else ret None) in
  match cached with
  | Some folder_id => ret (folder_id, set_folder_id folder_id self)
  | None =>
      let* folder_id :=
        get_or_create_drive_folder (service self) (basename (watch_folder self)) in
      if truthy folder_id then
        try (makedirs (base_dir self);;
             open_write (folder_id_file self);;
             write (folder_id_file self) folder_id;;
             ret (folder_id, set_folder_id folder_id self))
            (fun e => log ERROR (FailedToSaveFolderId e);; ret (folder_id, self))
      else ret (folder_id, self)
  end.

(** The events of the file-system watch: [event.event_type],
    [event.is_directory], [event.src_path], and [event.dest_path] where
    the event has one. *)
Inductive event_type := created | modified | deleted | moved.

Record event := {
  kind : event_type;
  is_directory : bool;
  src_path : string;
  dest_path : option string
}.

Definition on_modified (self : t) (ev : event) : M S unit :=
  if is_directory ev then ret tt
  else if startswith "." (basename (src_path ev)) then ret tt
  else upload_file (service self) (folder_id self) (mapping_path self) (src_path ev).

Definition on_created (self : t) (ev : event) : M S unit :=
  if is_directory ev then ret tt
  else if startswith "." (basename (src_path ev)) then ret tt
  else upload_file (service self) (folder_id self) (mapping_path self) (src_path ev).

Definition on_deleted (self : t) (ev : event) : M S unit :=
  if is_directory ev then ret tt
  else if startswith "." (basename (src_path ev)) then ret tt
  else delete_file_from_drive (service self) (mapping_path self) (basename (src_path ev)).

Definition on_moved (self : t) (ev : event) : M S unit :=
  if is_directory ev then ret tt
  else
    let dest := default "" (dest_path ev) in
    if contains "/.local/share/Trash" dest || contains "/Trash" dest then
      delete_file_from_drive (service self) (mapping_path self) (basename (src_path ev))
    else ret tt.

(** [FileSystemEventHandler.dispatch] of the watch library: the handler
    of the event's kind is called. *)
Definition dispatch (self : t) (ev : event) : M S unit :=
  match kind ev with
  | created => on_created self ev
  | modified => on_modified self ev
  | deleted => on_deleted self ev
  | moved => on_moved self ev
  end.

(** The watch loop of the observer thread, on the events it is given:
    they are dispatched one after the other, and an exception a handler
    lets through ends it. *)
Fixpoint deliver (self : t) (evs : list event) : M S unit :=
  match evs with
  | [] => ret tt
  | ev :: evs' => dispatch self ev;; deliver self evs'
  end.

End Watcher.
End Watcher.

(** * The vocabulary of the properties *)

Section Vocabulary.
Context {S : Type}.

(** The dictionary held by the mapping document at [path], when the
    document is one. *)
Definition mapping_at (w : World S) (path : string) : option (gmap string value) :=
  match fs w !! path with
  | Some (Json (JObj m)) => Some m
  | _ => None
  end.

(** The identifier the mapping document records for [name]. *)
Definition entry (w : World S) (path name : string) : option value :=
  match mapping_at w path with
  | Some m => m !! name
  | None => None
  end.

(** The mapping a [put] starts from: empty when the document is missing or
    is text the parser rejects, the dictionary when it holds one; there is
    none when the document cannot be read or holds another JSON value. *)
Definition stored_mapping (w : World S) (path : string) : option (gmap string value) :=
  match fs w !! path with
  | None | Some (Text _) => Some ∅
  | Some (Json (JObj m)) => Some m
  | _ => None
  end.

(** [open(path, "w")] goes through. *)
Definition writable (w : World S) (path : string) : Prop :=
  (path ∉ readonly w) ∧ (fs w !! path ≠ Some Directory).


(** A file that [open] can open for reading. *)
Definition readable (c : content) : Prop := c ≠ Directory ∧ c ≠ Locked.

End Vocabulary.

(** The substrings that mark a destination in the trash. *)
Definition trash_markers : list string := ["/.local/share/Trash"; "/Trash"].

(** [dest] has one of the trash markers somewhere in it. *)
Definition in_trash (dest : string) : Prop :=
  ∃ marker a b, marker ∈ trash_markers ∧ dest = (a ++ marker ++ b)%string.

(** A base name of a hidden file: its first character is a dot. *)
Definition hidden (name : string) : Prop := ∃ rest, name = String "." rest.

(** * The search queries of the remote service

    The [q] of a list call is text in the query language of the remote
    service.  This is the part of that language in which the program
    writes: conditions joined by [ and ], each of them [name='...'],
    [mimeType='...'] or [trashed=] with [true] or [false].  Between the
    quotes of a value, a quote is written [\'] and a backslash [\\]; a
    quote that is not escaped ends the value. *)

Module Query.

Inductive condition :=
| Name (s : string)
| MimeType (s : string)
| Trashed (b : bool).

(** What follows the prefix [p] in [s], when [s] starts with [p]. *)
Fixpoint after (p s : string) : option string :=
  match p, s with
  | "", _ => Some s
  | String a p', String b s' => if Ascii.eqb a b then after p' s' else None
  | String _ _, "" => None
  end.

(** A value, read from behind its opening quote, and what follows its
    closing quote. *)
Fixpoint quoted (s : string) : option (string * string) :=
  match s with
  | "" => None
  | String c s' =>
      if Ascii.eqb c "'" then Some ("", s')
      else if Ascii.eqb c "\" then
        match s' with
        | String d s'' =>
            if Ascii.eqb d "'" || Ascii.eqb d "\" then
              prod_map (String d) id <$> quoted s''
            else None
        | "" => None
        end
      else prod_map (String c) id <$> quoted s'
  end.

(** The condition at the head of [q], and what follows it. *)
Definition condition_at (q : string) : option (condition * string) :=
  match after "name='" q with
  | Some v => prod_map Name id <$> quoted v
  | None =>
      match after "mimeType='" q with
      | Some v => prod_map MimeType id <$> quoted v
      | None =>
          match after "trashed=" q with
          | Some v =>
              match after "false" v with
              | Some rest => Some (Trashed false, rest)
              | None => pair (Trashed true) <$> after "true" v
              end
          | None => None
          end
      end
  end.

Fixpoint conditions (fuel : nat) (q : string) : option (list condition) :=
  match fuel with
  | O => None
  | Datatypes.S fuel' =>
      match condition_at q with
      | Some (c, "") => Some [c]
      | Some (c, rest) =>
          match after " and " rest with
          | Some q' => cons c <$> conditions fuel' q'
          | None => None
          end
      | None => None
      end
  end.

(** The conditions that the query [q] asks for; [None] when [q] is no
    query. *)
Definition parse (q : string) : option (list condition) :=
  conditions (String.length q) q.

(** An object of the remote store, and the objects a query selects. *)
Record item := {
  item_id : string;
  item_name : string;
  item_mimeType : string;
  item_trashed : bool
}.

Definition holds (c : condition) (i : item) : bool :=
  match c with
  | Name s => String.eqb (item_name i) s
  | MimeType s => String.eqb (item_mimeType i) s
  | Trashed b => Bool.eqb (item_trashed i) b
  end.

Definition select (cs : list condition) (store : list item) : list item :=
  List.filter (fun i => forallb (fun c => holds c i) cs) store.

(** A value free of the two characters that a quoted value must escape. *)
Fixpoint plain (s : string) : bool :=
  match s with
  | "" => true
  | String c s' => negb (Ascii.eqb c "'") && negb (Ascii.eqb c "\") && plain s'
  end.

End Query.

(** * Worlds and services to run the program on *)

Section Demo.

(** A remote service held in memory.  Its state counts the objects
    created so far; a created object gets the next identifier; no folder
    is ever listed. *)
Definition memory_drive : Service nat := fun r n =>
  match r with
  | FilesList _ _ => (inr (JObj {["files" := JArr []]}), n)
  | FilesCreate _ _ _ => (inr (JObj {["id" := JStr ("id" +:+ pretty n)]}), Datatypes.S n)
  | FilesUpdate fileId _ => (inr (JObj {["id" := fileId]}), n)
  | FilesDelete _ => (inr (JStr ""), n)
  end.

(** A service every call of which fails with [e]. *)
Definition failing_drive (e : exn) : Service nat := fun _ n => (inl e, n).

(** A service that lists one folder, [folder_id]. *)
Definition drive_with_folder (folder_id : string) : Service nat := fun r n =>
  match r with
  | FilesList _ _ =>
      (inr (JObj {["files" := JArr [JObj {["id" := JStr folder_id]}]]}), n)
  | _ => memory_drive r n
  end.

(** A service that lists no folder and cannot create one. *)
Definition drive_without_quota : Service nat := fun r n =>
  match r with
  | FilesCreate _ _ _ => (inl (HttpError 403), n)
  | _ => memory_drive r n
  end.

(** The world with the given files, every path writable, and a remote
    service that has created nothing yet. *)
Definition world (up : bool) (files : list (string * content)) : World nat :=
  {| connected := up; fs := list_to_map files; readonly := ∅; remote := 0 |}.

(** A watcher of [/w] that keeps its documents in [/app]. *)
Definition watcher (service : Service nat) : Watcher.t :=
  Watcher.init "/app" service "/w" None.

(** The JSON text of the demonstrations; no run below reads it. *)
Definition no_text : value → string := fun _ => "{}".

Definition hidden_to_trash : Watcher.event :=
  {| Watcher.kind := Watcher.moved; Watcher.is_directory := false;
     Watcher.src_path := "/w/.hidden";
     Watcher.dest_path := Some "/home/u/.local/share/Trash/files/.hidden" |}.

Definition report_to_trash : Watcher.event :=
  {| Watcher.kind := Watcher.moved; Watcher.is_directory := false;
     Watcher.src_path := "/w/report.txt";
     Watcher.dest_path := Some "/home/u/.local/share/Trash/files/report.txt" |}.

Definition report_renamed : Watcher.event :=
  {| Watcher.kind := Watcher.moved; Watcher.is_directory := false;
     Watcher.src_path := "/w/report.txt";
     Watcher.dest_path := Some "/w/report-final.txt" |}.

Definition hidden_modified : Watcher.event :=
  {| Watcher.kind := Watcher.modified; Watcher.is_directory := false;
     Watcher.src_path := "/w/.hidden"; Watcher.dest_path := None |}.

Definition report_created : Watcher.event :=
  {| Watcher.kind := Watcher.created; Watcher.is_directory := false;
     Watcher.src_path := "/w/report.txt"; Watcher.dest_path := None |}.

Definition report_modified : Watcher.event :=
  {| Watcher.kind := Watcher.modified; Watcher.is_directory := false;
     Watcher.src_path := "/w/report.txt"; Watcher.dest_path := None |}.

Definition gone_modified : Watcher.event :=
  {| Watcher.kind := Watcher.modified; Watcher.is_directory := false;
     Watcher.src_path := "/w/gone.txt"; Watcher.dest_path := None |}.

Definition notes_created : Watcher.event :=
  {| Watcher.kind := Watcher.created; Watcher.is_directory := false;
     Watcher.src_path := "/w/notes.txt"; Watcher.dest_path := None |}.

End Demo.

(** * The vocabulary of the further properties *)

Section Frames.
Context {S : Type}.

(** Two worlds that differ at most in what the file at [path] holds. *)
Definition same_but (path : string) (w w' : World S) : Prop :=
  connected w' = connected w ∧ readonly w' = readonly w ∧ remote w' = remote w
  ∧ ∀ p, p ≠ path → fs w' !! p = fs w !! p.

(** The document at [file] holds no identifier that
    [get_or_create_folder_id] would take: it is missing, cannot be read,
    or its text trims to nothing. *)
Definition uncached (json_text : value → string) (w : World S) (file : string) : Prop :=
  ∀ c text, fs w !! file = Some c → Watcher.read json_text c = inr text → strip text = [].

End Frames.

Section MoreDemo.

(** A world in which the paths of [locked] may not be written. *)
Definition world_with_readonly (up : bool) (files : list (string * content))
    (locked : list string) : World nat :=
  {| connected := up; fs := list_to_map files; readonly := list_to_set locked; remote := 0 |}.

(** A service whose create replies carry no [id]. *)
Definition drive_without_ids : Service nat := fun r n =>
  match r with
  | FilesCreate _ _ _ => (inr (JObj ∅), Datatypes.S n)
  | _ => memory_drive r n
  end.

(** A service that lists one folder, without its [id]. *)
Definition drive_with_nameless_folder : Service nat := fun r n =>
  match r with
  | FilesList _ _ => (inr (JObj {["files" := JArr [JObj {["name" := JStr "w"]}]]}), n)
  | _ => memory_drive r n
  end.

Definition report_to_trashcan : Watcher.event :=
  {| Watcher.kind := Watcher.moved; Watcher.is_directory := false;
     Watcher.src_path := "/w/report.txt";
     Watcher.dest_path := Some "/w/Trashcan/report.txt" |}.

Definition folder_created : Watcher.event :=
  {| Watcher.kind := Watcher.created; Watcher.is_directory := true;
     Watcher.src_path := "/w/photos"; Watcher.dest_path := None |}.

(** A remote service that holds objects and reads the queries it is
    sent: a list call gets the objects its query selects, and status 400
    when its [q] is no query; a create call adds the object of its body. *)
Definition listed (i : Query.item) : value :=
  JObj {["id" := JStr (Query.item_id i); "name" := JStr (Query.item_name i)]}.

Definition folder_store : Service (list Query.item) := fun r store =>
  match r with
  | FilesList q _ =>
      match Query.parse q with
      | Some cs => (inr (JObj {["files" := JArr (listed <$> Query.select cs store)]}), store)
      | None => (inl (HttpError 400), store)
      end
  | FilesCreate (JObj body) _ _ =>
      match body !! "name", body !! "mimeType" with
      | Some (JStr n), Some (JStr m) =>
          let i := "id" +:+ pretty (length store) in
          (inr (JObj {["id" := JStr i]}),
           store ++ [{| Query.item_id := i; Query.item_name := n;
                        Query.item_mimeType := m; Query.item_trashed := false |}])
      | _, _ => (inl (HttpError 400), store)
      end
  | _ => (inl (HttpError 400), store)
  end.

(** A world without files, in front of the store [store]. *)
Definition store_world (store : list Query.item) : World (list Query.item) :=
  {| connected := true; fs := ∅; readonly := ∅; remote := store |}.

(** A folder of the given name that is not trashed. *)
Definition folder (id name : string) : Query.item :=
  {| Query.item_id := id; Query.item_name := name;
     Query.item_mimeType := folder_mime; Query.item_trashed := false |}.


(** A mapping with two entries. *)
Definition two_entries : gmap string value :=
  {["report.txt" := JStr "id123"; "notes.txt" := JStr "id456"]}.

End MoreDemo.

(** * String primitives against their meaning *)

Section string_facts.

Lemma startswith_spec (p s : string) :
  startswith p s = true ↔ ∃ r, s = (p ++ r)%string.
Proof.
  revert s. induction p as [|a p IH]; intros s; cbn.
  - split; [eauto | done].
  - destruct s as [|b s].
    + split; [done | intros [r Hr]; discriminate].
    + rewrite andb_true_iff, IH. split.
      * intros [Hab [r ->]]. apply Ascii.eqb_eq in Hab as ->. eauto.
      * intros [r Hr]. injection Hr as -> ->. rewrite Ascii.eqb_refl. eauto.
Qed.

Lemma contains_spec (p s : string) :
  contains p s = true ↔ ∃ a b, s = (a ++ p ++ b)%string.
Proof.
  induction s as [|c s IH]; cbn.
  - rewrite orb_false_r, startswith_spec. split.
    + intros [r Hr]. exists "", r. done.
    + intros [a [b Hab]]. destruct a; [eauto | discriminate].
  - rewrite orb_true_iff, startswith_spec, IH. split.
    + intros [[r Hr] | [a [b ->]]].
      * exists "", r. done.
      * exists (String c a), b. done.
    + intros [[|c' a] [b Hab]].
      * left. eauto.
      * right. injection Hab as -> ->. eauto.
Qed.

Lemma hidden_spec (name : string) : startswith "." name = true ↔ hidden name.
Proof. rewrite startswith_spec. done. Qed.

Lemma in_trash_spec (dest : string) :
  contains "/.local/share/Trash" dest || contains "/Trash" dest = true ↔ in_trash dest.
Proof.
  rewrite orb_true_iff, !contains_spec. unfold in_trash, trash_markers. split.
  - intros [(a & b & ->) | (a & b & ->)]; eexists _, a, b; (split; [|done]).
    + apply list_elem_of_here.
    + apply list_elem_of_further, list_elem_of_here.
  - intros (m & a & b & Hm & ->).
    apply elem_of_cons in Hm as [-> | Hm]; [left; eauto |].
    apply elem_of_cons in Hm as [-> | Hm]; [right; eauto |].
    by apply not_elem_of_nil in Hm.
Qed.

(** A name without a slash is the base name of every path that ends
    with a slash and that name. *)
Lemma after_last_slash_cons (c : ascii) (p : string) :
  after_last_slash (String c p) =
  match after_last_slash p with
  | Some t => Some t
  | None => if Ascii.eqb c "/" then Some p else None
  end.
Proof. reflexivity. Qed.

Lemma after_last_slash_app (d n : string) :
  after_last_slash n = None →
  after_last_slash (d ++ String "/" n) = Some n.
Proof.
  intros Hn. induction d as [|c d IH].
  - change (after_last_slash (String "/" n) = Some n).
    by rewrite after_last_slash_cons, Hn.
  - change (after_last_slash (String c (d ++ String "/" n)) = Some n).
    by rewrite after_last_slash_cons, IH.
Qed.

(** A name without a slash is the base name of every path that ends
    with a slash and that name. *)
Lemma basename_in_directory (d n : string) :
  after_last_slash n = None → basename (d ++ String "/" n) = n.
Proof. intros Hn. unfold basename. by rewrite after_last_slash_app. Qed.

Lemma length_append (a b : string) :
  String.length (a ++ b)%string = (String.length a + String.length b)%nat.
Proof.
  induction a as [|c a IH]; [done |].
  change (S (String.length (a ++ b)%string) = S (String.length a + String.length b)).
  by rewrite IH.
Qed.

Lemma join_length (a b : string) :
  startswith "/" b = false →
  (String.length a + String.length b ≤ String.length (join a b))%nat.
Proof.
  intros Hb. unfold join. rewrite Hb.
  destruct (_ || _); rewrite !length_append; cbn; lia.
Qed.

(** The documents of a watcher lie inside its base directory. *)
Lemma join_ne (a b : string) :
  startswith "/" b = false → b ≠ "" → join a b ≠ a.
Proof.
  intros Hb Hne Heq. pose proof (join_length a b Hb) as Hlen.
  rewrite Heq in Hlen. destruct b; [done | cbn in Hlen; lia].
Qed.

End string_facts.

(** * Runs of the primitives and of the identity mapping store *)

Section store_facts.
Context {S : Type}.
Implicit Types (w : World S) (service : Service S).

#[local] Arguments is_internet_connected : simpl never.
#[local] Arguments MediaFileUpload : simpl never.

Lemma remote_calls_app (t1 t2 : list effect) :
  remote_calls (t1 ++ t2) = remote_calls t1 ++ remote_calls t2.
Proof.
  induction t1 as [|[] t1 IH]; cbn; [done | by rewrite ?IH ..].
Qed.

Lemma set_fs_insert_twice w path (a b : content) :
  set_fs (insert path a) (set_fs (insert path b) w) = set_fs (insert path a) w.
Proof. unfold set_fs; cbn. f_equal. apply insert_insert_eq. Qed.

Lemma open_write_ok w path :
  writable w path →
  open_write path w = (inr tt, set_fs (insert path (Text "")) w, [OpenWrite path]).
Proof.
  intros [Hro Hdir]. unfold open_write.
  rewrite bool_decide_eq_false_2 by done.
  destruct (fs w !! path) as [[]|]; done.
Qed.


Lemma is_internet_connected_up w :
  connected w = true →
  is_internet_connected w
  = (inr true, w, [Log INFO CheckingConnectivity; Probe; Log INFO ConnectionDetected]).
Proof.
  intros Hup. unfold is_internet_connected, create_connection, bind, try, log, emit, ret.
  cbn. by rewrite Hup.
Qed.

Lemma is_internet_connected_down w :
  connected w = false →
  is_internet_connected w
  = (inr false, w, [Log INFO CheckingConnectivity; Probe; Log WARNING NoConnectionDetected]).
Proof.
  intros Hdown. unfold is_internet_connected, create_connection, bind, try, log, emit, ret.
  cbn. by rewrite Hdown.
Qed.

Lemma MediaFileUpload_run w path c :
  fs w !! path = Some c → readable c →
  MediaFileUpload path w = (inr {| filename := path; body := c |}, w, [OpenRead path]).
Proof.
  intros Hc [Hdir Hlock]. unfold MediaFileUpload, open_read, bind, ret. rewrite Hc.
  by destruct c.
Qed.

Lemma entry_set_remote w s path name :
  entry (set_remote s w) path name = entry w path name.
Proof. reflexivity. Qed.

Lemma entry_set_fs w path name (m : gmap string value) :
  entry (set_fs (insert path (Json (JObj m))) w) path name = m !! name.
Proof. unfold entry, mapping_at, set_fs; cbn. by rewrite lookup_insert_eq. Qed.

Lemma entry_fs w1 w2 path name :
  fs w1 !! path = fs w2 !! path → entry w1 path name = entry w2 path name.
Proof. unfold entry, mapping_at. by intros ->. Qed.

Lemma stored_mapping_entry w path name m :
  stored_mapping w path = Some m → entry w path name = m !! name.
Proof.
  unfold stored_mapping, entry, mapping_at.
  destruct (fs w !! path) as [[| | | s | [| | | | |m']]|]; try done; by intros [= <-].
Qed.

(** [get] never raises and changes nothing: it returns the recorded
    identifier, and [None] in every other case. *)
Lemma get_file_id_run w path name :
  ∃ t, get_file_id path name w = (inr (default None_ (entry w path name)), w, t)
       ∧ remote_calls t = [].
Proof.
  unfold get_file_id, entry, mapping_at, bind, try, path_exists, open_read, log, emit, lift, ret.
  destruct (fs w !! path) as [[| | | s | [| | | | |m]]|] eqn:E; cbn; rewrite ?E; cbn; eauto.
Qed.

(** [put] on a document it can start from and write to. *)
Lemma save_file_mapping_run w path name id m :
  stored_mapping w path = Some m →
  writable w path →
  ∃ t, save_file_mapping path name id w
         = (inr tt, set_fs (insert path (Json (JObj (<[name := id]> m)))) w, t)
       ∧ remote_calls t = [].
Proof.
  intros Hm Hw. pose proof (open_write_ok w path Hw) as Ho.
  unfold save_file_mapping, stored_mapping in *.
  unfold bind, try, path_exists, open_read, json_dump, log, emit, lift, ret.
  destruct (fs w !! path) as [[| | | s | [| | | | |m']]|] eqn:E; try discriminate;
    injection Hm as <-; cbn; rewrite ?E; cbn; rewrite Ho; cbn;
    rewrite set_fs_insert_twice; eauto.
Qed.

(** [put] lets the decoding error of a document that is no text through:
    only [JSONDecodeError] is caught around the load. *)
Lemma save_file_mapping_binary_raises w path name id :
  fs w !! path = Some Binary →
  save_file_mapping path name id w
  = (inl UnicodeDecodeError, w, [PathExists path; OpenRead path]).
Proof.
  intros E.
  unfold save_file_mapping, bind, try, path_exists, open_read, lift, ret.
  rewrite E. cbn. rewrite E. reflexivity.
Qed.

(** [remove] on a dictionary: no exception, no remote call; the entry is
    deleted when the document can be written. *)
Lemma remove_file_mapping_run w path name m :
  mapping_at w path = Some m →
  ∃ w' t, remove_file_mapping path name w = (inr tt, w', t)
          ∧ remote_calls t = []
          ∧ remote w' = remote w
          ∧ (writable w path → is_Some (m !! name) →
             w' = set_fs (insert path (Json (JObj (delete name m)))) w).
Proof.
  intros Hm. unfold mapping_at in Hm.
  destruct (fs w !! path) as [[| | | s | [| | | | |m']]|] eqn:E; try discriminate.
  injection Hm as ->.
  unfold remove_file_mapping, bind, try, path_exists, open_read, json_dump, log, emit, lift, ret.
  cbn. rewrite E. cbn. rewrite E. cbn.
  destruct (m !! name) as [v|] eqn:En; cbn.
  - unfold open_write. rewrite E. case_bool_decide as Hro; cbn.
    + eexists _, _; split_and!; [done ..|]. by intros [? _].
    + eexists _, _; split_and!; [done ..|]. intros _ _. apply set_fs_insert_twice.
  - eexists _, _; split_and!; [done ..|]. by intros _ [? ?].
Qed.

End store_facts.

(** * Remote sync operations *)

Section sync_claims.
Context {S : Type}.
Implicit Types (w : World S) (service : Service S).

#[local] Arguments is_internet_connected : simpl never.
#[local] Arguments MediaFileUpload : simpl never.
#[local] Arguments get_file_id : simpl never.
#[local] Arguments save_file_mapping : simpl never.
#[local] Arguments remove_file_mapping : simpl never.

(** An upload of a tracked file: one update call, whatever its reply,
    and no file written. *)
Lemma upload_file_tracked service folder_id mapping_path file_path w c id :
  connected w = true →
  fs w !! file_path = Some c → readable c →
  entry w mapping_path (basename file_path) = Some id →
  truthy id = true →
  ∃ w' t, upload_file service folder_id mapping_path file_path w = (inr tt, w', t)
          ∧ fs w' = fs w
          ∧ remote_calls t = [FilesUpdate id {| filename := file_path; body := c |}].
Proof.
  intros Hup Hc Hread Hentry Hid.
  unfold upload_file, bind.
  rewrite (is_internet_connected_up w Hup). cbn.
  rewrite (MediaFileUpload_run w file_path c Hc Hread).
  destruct (get_file_id_run w mapping_path (basename file_path)) as (t0 & -> & Ht0).
  rewrite Hentry. cbn. rewrite Hid.
  unfold try, bind, execute, log, emit. cbn.
  destruct (service _ _) as [[e|v] s1]; cbn;
    (eexists _, _; split_and!; [reflexivity | reflexivity |]);
    cbn; rewrite remote_calls_app, Ht0; reflexivity.
Qed.

(** C1. For every file, with [name] its base name: when the network is
    reachable, the file can be opened, the mapping document can be
    started from and written, it has no entry for [name], and the
    create-object call is answered with an identifier [id], then
    [upload_file] sends exactly that one create call and leaves the entry
    [name -> id]; and a second [upload_file] of the same path, whatever
    the file then holds, sends exactly one update-content call, against
    [id], writes no file, and the entry is still [name -> id]. *)
Theorem upload_twice_creates_then_updates
    service folder_id mapping_path file_path w c m file id s1 :
  let name := basename file_path in
  let media := {| filename := file_path; body := c |} in
  connected w = true →
  fs w !! file_path = Some c → readable c →
  stored_mapping w mapping_path = Some m → m !! name = None →
  writable w mapping_path →
  service (create_file name folder_id media) (remote w) = (inr (JObj file), s1) →
  file !! "id" = Some id → truthy id = true →
  ∃ w1 t1,
    upload_file service folder_id mapping_path file_path w = (inr tt, w1, t1)
    ∧ remote_calls t1 = [create_file name folder_id media]
    ∧ entry w1 mapping_path name = Some id
    ∧ ∀ w2 c2,
        connected w2 = true →
        fs w2 !! mapping_path = fs w1 !! mapping_path →
        fs w2 !! file_path = Some c2 → readable c2 →
        ∃ w3 t2,
          upload_file service folder_id mapping_path file_path w2 = (inr tt, w3, t2)
          ∧ remote_calls t2 = [FilesUpdate id {| filename := file_path; body := c2 |}]
          ∧ fs w3 = fs w2
          ∧ entry w3 mapping_path name = Some id.
Proof.
  intros name media Hup Hc Hread Hm Hnone Hw Hreply Hfid Hid.
  pose proof (stored_mapping_entry w mapping_path name m Hm) as Hentry.
  rewrite Hnone in Hentry.
  destruct (save_file_mapping_run (set_remote s1 w) mapping_path name id m Hm Hw)
    as (ts & Hsave & Hts).
  destruct (get_file_id_run w mapping_path name) as (t0 & Hget & Ht0).
  eexists _, _. split_and!.
  - unfold upload_file, bind.
    rewrite (is_internet_connected_up w Hup). cbn.
    rewrite (MediaFileUpload_run w file_path c Hc Hread).
    fold name. rewrite Hget, Hentry. cbn.
    unfold try, bind, execute, lift, log, emit. fold media. rewrite Hreply. cbn.
    rewrite Hfid. cbn. rewrite Hsave. cbn. reflexivity.
  - cbn. rewrite remote_calls_app, Ht0. cbn. by rewrite remote_calls_app, Hts.
  - rewrite entry_set_fs. apply lookup_insert_eq.
  - intros w2 c2 Hup2 Hsame Hc2 Hread2.
    assert (entry w2 mapping_path name = Some id) as Hentry2.
    { rewrite (entry_fs w2 _ mapping_path name Hsame), entry_set_fs.
      apply lookup_insert_eq. }
    destruct (upload_file_tracked service folder_id mapping_path file_path w2 c2 id)
      as (w3 & t2 & Hrun & Hfs & Hcalls); try done.
    eexists _, _. split_and!; [done | done | done |].
    by rewrite (entry_fs w3 w2 mapping_path name) by by rewrite Hfs.
Qed.

(** C3. When the connectivity probe fails, [upload_file] returns without
    an exception, leaves the world as it is, sends no remote call, opens
    or tests no file (so the mapping document is neither read nor
    written), and its last log line is the "no internet connection" error
    for the path. *)
Theorem no_network_short_circuit service folder_id mapping_path file_path w :
  connected w = false →
  ∃ t, upload_file service folder_id mapping_path file_path w = (inr tt, w, t)
       ∧ remote_calls t = []
       ∧ touched t = []
       ∧ logged t = [(INFO, CheckingConnectivity); (WARNING, NoConnectionDetected);
                     (ERROR, CannotUploadNoConnection file_path)].
Proof.
  intros Hoff.
  unfold upload_file, is_internet_connected, create_connection, bind, try, log, emit, ret.
  cbn. rewrite Hoff. cbn. eauto.
Qed.

(** X14. [MediaFileUpload] is built before the [try] of [upload_file]:
    when the network is reachable and the file cannot be opened (it is
    missing, a directory, or may not be read), [upload_file] raises
    [OSError], the world is unchanged, and nothing was sent or looked up
    in the mapping. *)
Lemma upload_file_unreadable_raises service folder_id mapping_path file_path w :
  connected w = true →
  (∀ c, fs w !! file_path = Some c → ¬ readable c) →
  upload_file service folder_id mapping_path file_path w
  = (inl OSError, w,
     [Log INFO CheckingConnectivity; Probe; Log INFO ConnectionDetected;
      OpenRead file_path]).
Proof.
  intros Hup Hbad. unfold upload_file, bind.
  rewrite (is_internet_connected_up w Hup). cbn.
  unfold MediaFileUpload, open_read, bind, ret.
  destruct (fs w !! file_path) as [c|] eqn:Hc; [|done].
  specialize (Hbad c eq_refl).
  destruct c; try done; exfalso; apply Hbad; by split.
Qed.

(** X15. With a file that can be opened, [upload_file] returns without
    raising, whatever the network, the service and the mapping document
    do: every exception of the remote calls and of the mapping store is
    caught. *)
Lemma upload_file_readable_returns service folder_id mapping_path file_path w c :
  fs w !! file_path = Some c → readable c →
  ∃ w' t, upload_file service folder_id mapping_path file_path w = (inr tt, w', t).
Proof.
  intros Hc Hread. unfold upload_file, bind.
  destruct (connected w) eqn:Hnet.
  - rewrite (is_internet_connected_up w Hnet). cbn.
    rewrite (MediaFileUpload_run w file_path c Hc Hread).
    destruct (get_file_id_run w mapping_path (basename file_path)) as (t0 & -> & _).
    unfold try, bind, execute, lift, log, emit.
    destruct (truthy _); cbn.
    + destruct (service _ _) as [[e|v] s1]; cbn; eauto.
    + destruct (service _ _) as [[e|v] s1]; cbn; [eauto |].
      destruct (get v "id") as [e|file_id]; cbn; [eauto |].
      destruct (save_file_mapping mapping_path (basename file_path) file_id
                  (set_remote s1 w)) as [[[e|[]] w1] t1]; cbn; eauto.
  - rewrite (is_internet_connected_down w Hnet). cbn. eauto.
Qed.

(** [delete] never raises. *)
Lemma delete_file_from_drive_returns service mapping_path name w :
  ∃ w' t, delete_file_from_drive service mapping_path name w = (inr tt, w', t).
Proof.
  unfold delete_file_from_drive, bind.
  destruct (get_file_id_run w mapping_path name) as (t0 & -> & _).
  destruct (truthy _); cbn; [|eauto].
  unfold try, bind, log, emit, execute. cbn.
  destruct (service _ _) as [[e|v] s1]; cbn.
  - destruct (is_HttpError e); cbn; eauto.
  - destruct (remove_file_mapping mapping_path name (set_remote s1 w)) as [[[e|[]] w1] t1];
      cbn; [|eauto].
    destruct (is_HttpError e); cbn; eauto.
Qed.

(** C5. For every name with an entry [name -> id] in the mapping
    document: when the delete-object call on [id] fails with any
    exception [e], [delete_file_from_drive] returns without raising, no
    file is changed and the entry [name -> id] is still there; the one
    remote call of the run was that delete, and the last log line tells a
    remote-protocol error ([HttpError]) from any other (this for an [id]
    that [if not file_id] lets through).  And whenever the entry is gone
    after a run, the delete-object call had succeeded. *)
Theorem delete_failure_keeps_mapping service mapping_path name id w :
  entry w mapping_path name = Some id →
  (∀ e s1, service (FilesDelete id) (remote w) = (inl e, s1) →
     ∃ w' t, delete_file_from_drive service mapping_path name w = (inr tt, w', t)
             ∧ fs w' = fs w
             ∧ entry w' mapping_path name = Some id
             ∧ (truthy id = true →
                remote_calls t = [FilesDelete id]
                ∧ last t = Some (Log ERROR (if is_HttpError e
                                            then HttpErrorDeleting name e
                                            else UnexpectedErrorDeleting name e))))
  ∧ (∀ w' t, delete_file_from_drive service mapping_path name w = (inr tt, w', t) →
       entry w' mapping_path name = None →
       ∃ v s1, service (FilesDelete id) (remote w) = (inr v, s1)).
Proof.
  intros Hentry.
  assert (∀ e s1, service (FilesDelete id) (remote w) = (inl e, s1) →
     ∃ w' t, delete_file_from_drive service mapping_path name w = (inr tt, w', t)
          ∧ (w' = w ∨ w' = set_remote s1 w)
          ∧ (truthy id = true →
             remote_calls t = [FilesDelete id]
             ∧ last t = Some (Log ERROR (if is_HttpError e
                                         then HttpErrorDeleting name e
                                         else UnexpectedErrorDeleting name e))))
    as Hfail.
  { intros e s1 Hreply.
    unfold delete_file_from_drive, bind.
    destruct (get_file_id_run w mapping_path name) as (t0 & -> & Ht0).
    rewrite Hentry. cbn. destruct (truthy id); cbn.
    - unfold try, bind, log, emit, execute. cbn. rewrite Hreply. cbn.
      destruct (is_HttpError e); cbn; eexists _, _; (split_and!; [done | by right |]);
        intros _; rewrite ?remote_calls_app, ?Ht0, ?last_app; done.
    - eexists _, _. split_and!; [done | by left | done]. }
  split.
  - intros e s1 Hreply. destruct (Hfail e s1 Hreply) as (w' & t & Hrun & Hw' & Hlog).
    exists w', t. by destruct Hw' as [-> | ->].
  - intros w' t Hrun Hgone.
    destruct (service (FilesDelete id) (remote w)) as [[e|v] s1] eqn:Hreply; [|eauto].
    destruct (Hfail e s1 eq_refl) as (w'' & t' & Hrun' & Hw' & _).
    rewrite Hrun' in Hrun. injection Hrun as <- _.
    destruct Hw' as [-> | ->]; rewrite ?entry_set_remote, Hentry in Hgone; done.
Qed.

(** C6. For every name: when the mapping document has no entry for it,
    [delete_file_from_drive] returns with the world as it was (the
    document untouched), has sent no remote call, and its last log line
    is the "not found in Drive mapping" warning; hence, after a delete
    that went through (the remote call answered, the document written),
    the entry is gone and a second delete of the name changes nothing and
    sends nothing. *)
Theorem delete_untracked_is_noop service mapping_path name :
  (∀ w, entry w mapping_path name = None →
     ∃ t, delete_file_from_drive service mapping_path name w = (inr tt, w, t)
          ∧ remote_calls t = []
          ∧ last t = Some (Log WARNING (NotFoundInDriveMapping name)))
  ∧ (∀ w id v s1,
       entry w mapping_path name = Some id →
       truthy id = true →
       service (FilesDelete id) (remote w) = (inr v, s1) →
       writable w mapping_path →
       ∃ w1 t1, delete_file_from_drive service mapping_path name w = (inr tt, w1, t1)
                ∧ remote_calls t1 = [FilesDelete id]
                ∧ entry w1 mapping_path name = None
                ∧ ∃ t2, delete_file_from_drive service mapping_path name w1 = (inr tt, w1, t2)
                        ∧ remote_calls t2 = []).
Proof.
  assert (∀ w, entry w mapping_path name = None →
     ∃ t, delete_file_from_drive service mapping_path name w = (inr tt, w, t)
          ∧ remote_calls t = []
          ∧ last t = Some (Log WARNING (NotFoundInDriveMapping name))) as Hnoop.
  { intros w Hnone. unfold delete_file_from_drive, bind.
    destruct (get_file_id_run w mapping_path name) as (t0 & -> & Ht0).
    rewrite Hnone. cbn. eexists. split_and!; [done | |].
    - by rewrite remote_calls_app, Ht0.
    - by rewrite last_app. }
  split; [done |].
  intros w id v s1 Hentry Hid Hreply Hw.
  assert (∃ m, mapping_at w mapping_path = Some m ∧ m !! name = Some id) as (m & Hm & Hmn).
  { unfold entry in Hentry. destruct (mapping_at w mapping_path) as [m|]; [eauto | done]. }
  destruct (remove_file_mapping_run (set_remote s1 w) mapping_path name m Hm)
    as (w1 & tr & Hrm & Htr & _ & Hw1).
  specialize (Hw1 Hw (ex_intro _ id Hmn)). subst w1.
  unfold delete_file_from_drive at 1. unfold bind.
  destruct (get_file_id_run w mapping_path name) as (t0 & -> & Ht0).
  rewrite Hentry. cbn. rewrite Hid. cbn.
  unfold try, bind, log, emit, execute. cbn. rewrite Hreply. cbn.
  rewrite Hrm. cbn.
  eexists _, _. split_and!; [reflexivity | ..].
  - rewrite remote_calls_app, Ht0. cbn. by rewrite remote_calls_app, Htr.
  - rewrite entry_set_fs. apply lookup_delete_eq.
  - destruct (Hnoop (set_fs (insert mapping_path (Json (JObj (delete name m))))
                       (set_remote s1 w))) as (t2 & Hrun2 & Ht2 & _).
    + rewrite entry_set_fs. apply lookup_delete_eq.
    + eauto.
Qed.

(** X28. For a mapping document of text that the JSON parser rejects
    ([json.load] raises [JSONDecodeError]), every name and every
    identifier: [get_file_id] returns [None] without raising and leaves
    the world as it is, and a following [save_file_mapping], the document
    being writable, returns without raising and leaves the document
    holding exactly [{name: id}]. *)
Theorem corrupt_document_self_heals w mapping_path name id c :
  fs w !! mapping_path = Some c →
  json_load c = inl JSONDecodeError →
  writable w mapping_path →
  (∃ t, get_file_id mapping_path name w = (inr None_, w, t))
  ∧ (∃ t, save_file_mapping mapping_path name id w
            = (inr tt, set_fs (insert mapping_path (Json (JObj {[name := id]}))) w, t)).
Proof.
  intros Hc Hcorrupt Hw.
  assert (∃ s, c = Text s) as [s ->].
  { destruct c as [| | | s | j]; try discriminate. eauto. }
  split.
  - destruct (get_file_id_run w mapping_path name) as (t & Hrun & _).
    unfold entry, mapping_at in Hrun. rewrite Hc in Hrun. eauto.
  - destruct (save_file_mapping_run w mapping_path name id ∅) as (t & Hrun & _);
      [by unfold stored_mapping; rewrite Hc | done |].
    exists t. rewrite Hrun. by rewrite insert_empty.
Qed.

(** Resolving the container touches the remote service only. *)
Lemma get_or_create_drive_folder_local service name w r w' t :
  get_or_create_drive_folder service name w = (r, w', t) →
  ∃ s, w' = set_remote s w.
Proof.
  unfold get_or_create_drive_folder, bind, try, execute, lift, log, emit, ret.
  intros Hrun. cbn in Hrun.
  repeat (case_match; simplify_eq/=); eauto.
Qed.

(** X29. Whatever the container name, [get_or_create_drive_folder]
    first sends the list call with the query text written out below and
    the fields [files(id, name)].  When the call fails, it returns [None]
    and has sent nothing else.  When the reply lists at least one folder,
    it returns the identifier of the first and has sent nothing else.
    When the reply lists none, it sends one create call, whose body is the
    name and the folder type, and returns the identifier of the reply, or
    [None] when that call fails.  It raises in none of these cases. *)
Theorem resolve_finds_or_creates service folder_name w :
  let run := get_or_create_drive_folder service folder_name w in
  let listing :=
    FilesList
      ("name='" ++ folder_name
       ++ "' and mimeType='application/vnd.google-apps.folder' and trashed=false")%string
      "files(id, name)" in
  let creation :=
    FilesCreate
      (JObj (<["name" := JStr folder_name]>
               (<["mimeType" := JStr "application/vnd.google-apps.folder"]> ∅)))
      None "id" in
  (∃ r w' t rest, run = (r, w', t) ∧ remote_calls t = listing :: rest)
  ∧ (∀ e s1, service listing (remote w) = (inl e, s1) →
       ∃ w' t, run = (inr None_, w', t) ∧ remote_calls t = [listing])
  ∧ (∀ results first rest id s1,
       service listing (remote w) = (inr (JObj results), s1) →
       results !! "files" = Some (JArr (JObj first :: rest)) →
       first !! "id" = Some id →
       ∃ w' t, run = (inr id, w', t) ∧ remote_calls t = [listing])
  ∧ (∀ results s1,
       service listing (remote w) = (inr (JObj results), s1) →
       default (JArr []) (results !! "files") = JArr [] →
       (∀ folder id s2,
          service creation s1 = (inr (JObj folder), s2) →
          folder !! "id" = Some id →
          ∃ w' t, run = (inr id, w', t) ∧ remote_calls t = [listing; creation])
       ∧ (∀ e s2,
            service creation s1 = (inl e, s2) →
            ∃ w' t, run = (inr None_, w', t) ∧ remote_calls t = [listing; creation])).
Proof.
  intros run listing creation. subst run.
  unfold get_or_create_drive_folder, bind, try, execute, lift, log, emit, ret.
  change (list_folders folder_name) with listing.
  change (create_folder folder_name) with creation.
  split_and!.
  - cbn. destruct (service listing (remote w)) as [[e|v] s1]; cbn; [eauto 6 |].
    repeat (case_match; simplify_eq/=); eauto 6.
  - intros e s1 ->. cbn. eauto.
  - intros results first rest id s1 -> Hfiles Hid. cbn. rewrite Hfiles. cbn.
    rewrite Hid. cbn. eauto.
  - intros results s1 -> Hfiles. cbn. rewrite Hfiles. cbn. split.
    + intros folder id s2 -> Hid. cbn. rewrite Hid. cbn. eauto.
    + intros e s2 ->. cbn. eauto.
Qed.

End sync_claims.

(** * The event reconciler *)

Section watcher_claims.
Import Watcher.
Context {S : Type}.
Variable BASE_DIR : string.
Variable json_text : value → string.
Implicit Types (w : World S) (self : Watcher.t (S:=S)) (ev : event).

#[local] Arguments get_or_create_drive_folder : simpl never.
#[local] Arguments upload_file : simpl never.
#[local] Arguments delete_file_from_drive : simpl never.

(** X27. The two documents of a watcher that [__init__] builds are two
    different paths, and neither is the base directory itself, whatever
    the base directory given. *)
Lemma init_documents_inside (service : Service S) watch_folder dir :
  let self := init BASE_DIR service watch_folder dir in
  base_dir self ≠ folder_id_file self ∧ base_dir self ≠ mapping_path self
  ∧ folder_id_file self ≠ mapping_path self.
Proof.
  intros self. set (d := base_dir self).
  change (d ≠ join d "folder_id.txt" ∧ d ≠ join d "file_map.json"
          ∧ join d "folder_id.txt" ≠ join d "file_map.json").
  split_and!.
  - intros Heq. symmetry in Heq. by apply join_ne in Heq.
  - intros Heq. symmetry in Heq. by apply join_ne in Heq.
  - unfold join.
    change (startswith "/" "folder_id.txt") with false.
    change (startswith "/" "file_map.json") with false.
    destruct (_ || _); intros Heq.
    + by apply (inj (String.append d)) in Heq.
    + by apply (inj (String.append d)) in Heq.
Qed.

(** X21. The events on hidden files that the handlers of [created],
    [modified] and [deleted] see are dropped: the world is unchanged and
    nothing is sent, read or logged. *)
Lemma hidden_file_event_dropped self ev w :
  kind ev ≠ moved →
  hidden (basename (src_path ev)) →
  dispatch self ev w = (inr tt, w, []).
Proof.
  intros Hkind Hhidden. apply hidden_spec in Hhidden.
  unfold dispatch, on_created, on_modified, on_deleted.
  destruct (kind ev); try done; rewrite Hhidden; by destruct (is_directory ev).
Qed.

End watcher_claims.

(** * The program on the demonstration worlds *)

Section runs.
Import Watcher.

Lemma world_writable up files path :
  (list_to_map files : gmap string content) !! path ≠ Some Directory →
  writable (world up files) path.
Proof. intros Hdir. split; [apply not_elem_of_empty | exact Hdir]. Qed.

(** The end-to-end runs of the specification's testable properties. *)

Example modified_hidden_file_sends_nothing :
  let w := world true [("/w/.hidden", Text "secret")] in
  dispatch (watcher memory_drive) hidden_modified w = (inr tt, w, []).
Proof. reflexivity. Qed.

Example modified_file_is_created_once :
  let self := watcher memory_drive in
  let media := {| filename := "/w/report.txt"; body := Text "v1" |} in
  let '(r, w', t) := dispatch self report_modified (world true [("/w/report.txt", Text "v1")]) in
  r = inr tt
  ∧ remote_calls t = [create_file "report.txt" None_ media]
  ∧ fs w' !! mapping_path self = Some (Json (JObj {["report.txt" := JStr "id0"]})).
Proof. vm_compute. by split_and!. Qed.

Example file_moved_to_trash_is_deleted :
  let self := watcher memory_drive in
  let doc := Json (JObj {["report.txt" := JStr "id123"]}) in
  let '(r, w', t) := dispatch self report_to_trash (world true [(mapping_path self, doc)]) in
  r = inr tt
  ∧ remote_calls t = [FilesDelete (JStr "id123")]
  ∧ fs w' !! mapping_path self = Some (Json (JObj ∅)).
Proof. vm_compute. by split_and!. Qed.

Example created_then_modified_creates_then_updates :
  let self := watcher memory_drive in
  let media := {| filename := "/w/report.txt"; body := Text "v1" |} in
  let '(r, _, t) :=
    deliver self [report_created; report_modified]
      (world true [("/w/report.txt", Text "v1")]) in
  r = inr tt
  ∧ remote_calls t
    = [create_file "report.txt" None_ media; FilesUpdate (JStr "id0") media].
Proof. vm_compute. by split. Qed.

(** C2, the code on a hidden file moved to the trash.  The watcher
    receives a [moved] event whose source base name, [.hidden], starts
    with a dot and whose destination lies in the trash, while the mapping
    document records [.hidden -> id9].  The event is not ignored: the
    handler sends the delete-object call on [id9] and takes the entry out
    of the mapping document.  (The handlers of the three other kinds drop
    the events on hidden files, see [hidden_file_event_dropped].) *)
Theorem hidden_file_moved_to_trash_is_deleted :
  let self := watcher memory_drive in
  let w := world true [(mapping_path self, Json (JObj {[".hidden" := JStr "id9"]}))] in
  hidden (basename (src_path hidden_to_trash))
  ∧ entry w (mapping_path self) ".hidden" = Some (JStr "id9")
  ∧ let '(r, w', t) := dispatch self hidden_to_trash w in
    r = inr tt
    ∧ remote_calls t = [FilesDelete (JStr "id9")]
    ∧ entry w' (mapping_path self) ".hidden" = None.
Proof.
  cbv zeta. split_and!.
  - by exists "hidden".
  - by vm_compute.
  - vm_compute. by split_and!.
Qed.

(** C4, the code on a file that is gone when its event is handled.
    With the network reachable, [upload_file] on a path at which there is
    no file raises [OSError] to its caller: the exception comes from
    opening the file for the upload, before the [try].  In the watch
    loop, the [modified] event of such a file ends the loop: the
    [created] event behind it, which alone is handled with one create
    call, is not handled at all. *)
Theorem upload_of_missing_file_raises :
  let self := watcher memory_drive in
  let w := world true [("/w/notes.txt", Text "notes")] in
  fs w !! "/w/gone.txt" = None
  ∧ upload_file memory_drive (JStr "folder1") (mapping_path self) "/w/gone.txt" w
    = (inl OSError, w,
       [Log INFO CheckingConnectivity; Probe; Log INFO ConnectionDetected;
        OpenRead "/w/gone.txt"])
  ∧ (let '(r, _, t) := deliver self [notes_created] w in
     r = inr tt
     ∧ remote_calls t
       = [create_file "notes.txt" None_
            {| filename := "/w/notes.txt"; body := Text "notes" |}])
  ∧ (let '(r, _, t) := deliver self [gone_modified; notes_created] w in
     r = inl OSError ∧ remote_calls t = []).
Proof.
  cbv zeta. split_and!.
  - by vm_compute.
  - by vm_compute.
  - vm_compute. by split.
  - vm_compute. by split.
Qed.

(** C7, the code on a mapping document that cannot be decoded.  The
    document holds bytes that are no text, so that [json.load] fails in
    reading it, with [UnicodeDecodeError].  [get_file_id] returns [None],
    as the claim says.  [save_file_mapping] does not take the document as
    empty: only [JSONDecodeError] is caught around its load, the
    exception leaves the function and the document is not rewritten.  In
    the watch loop, the upload of a new file then sends its create call,
    records nothing, and the next event of the same file sends a second
    create call. *)
Theorem undecodable_document_is_not_healed :
  let self := watcher memory_drive in
  let path := mapping_path self in
  let w := world true [(path, Binary); ("/w/report.txt", Text "v1")] in
  let media := {| filename := "/w/report.txt"; body := Text "v1" |} in
  json_load Binary = inl UnicodeDecodeError
  ∧ get_file_id path "report.txt" w
    = (inr None_, w,
       [PathExists path; OpenRead path;
        Log ERROR (ErrorReadingFileMapping UnicodeDecodeError)])
  ∧ save_file_mapping path "report.txt" (JStr "id123") w
    = (inl UnicodeDecodeError, w, [PathExists path; OpenRead path])
  ∧ (let '(r, w', t) := deliver self [report_created; report_modified] w in
     r = inr tt
     ∧ remote_calls t
       = [create_file "report.txt" None_ media; create_file "report.txt" None_ media]
     ∧ fs w' !! path = Some Binary).
Proof.
  cbv zeta. split_and!.
  - reflexivity.
  - vm_compute. reflexivity.
  - vm_compute. reflexivity.
  - vm_compute. split_and!; reflexivity.
Qed.

(** C8, the code on a container name with a quote in it.  The name is
    put between the quotes of the query as it is: for [it's] the text
    sent as [q] is no query (the value ends at the quote of the name, and
    [s'] follows it).  A service that holds a folder of exactly that
    name, not trashed, answers the list call with status 400, and
    [get_or_create_drive_folder] returns [None]: the folder is not found,
    and none is created.  For the name [its] the same service finds the
    folder of that name, and creates one when it holds none. *)
Theorem quoted_folder_name_is_not_found :
  Query.parse (folder_query "it's") = None
  ∧ Query.parse (folder_query "its")
    = Some [Query.Name "its"; Query.MimeType "application/vnd.google-apps.folder";
            Query.Trashed false]
  ∧ (let '(r, w', t) :=
       get_or_create_drive_folder folder_store "it's"
         (store_world [folder "folder7" "it's"]) in
     r = inr None_
     ∧ remote_calls t
       = [FilesList
            "name='it's' and mimeType='application/vnd.google-apps.folder' and trashed=false"
            "files(id, name)"]
     ∧ logged t = [(ERROR, FailedToListFolders (HttpError 400))]
     ∧ remote w' = [folder "folder7" "it's"])
  ∧ (let '(r, w', t) :=
       get_or_create_drive_folder folder_store "its"
         (store_world [folder "folder7" "its"]) in
     r = inr (JStr "folder7")
     ∧ remote_calls t
       = [FilesList
            "name='its' and mimeType='application/vnd.google-apps.folder' and trashed=false"
            "files(id, name)"])
  ∧ (let '(r, w', t) :=
       get_or_create_drive_folder folder_store "its" (store_world []) in
     r = inr (JStr "id0")
     ∧ remote w' = [folder "id0" "its"]).
Proof.
  split_and!.
  - vm_compute. reflexivity.
  - vm_compute. reflexivity.
  - vm_compute. split_and!; reflexivity.
  - vm_compute. split_and!; reflexivity.
  - vm_compute. split_and!; reflexivity.
Qed.

(** A first upload of [/w/report.txt] and a second one after the file
    has changed, on the service in memory. *)
Lemma upload_twice_witness :
  let media := {| filename := "/w/report.txt"; body := Text "v1" |} in
  ∃ w1 t1,
    upload_file memory_drive (JStr "folder1") "/app/file_map.json" "/w/report.txt"
      (world true [("/w/report.txt", Text "v1")]) = (inr tt, w1, t1)
    ∧ remote_calls t1 = [create_file "report.txt" (JStr "folder1") media]
    ∧ entry w1 "/app/file_map.json" "report.txt" = Some (JStr "id0")
    ∧ ∀ w2 c2,
        connected w2 = true →
        fs w2 !! "/app/file_map.json" = fs w1 !! "/app/file_map.json" →
        fs w2 !! "/w/report.txt" = Some c2 → readable c2 →
        ∃ w3 t2,
          upload_file memory_drive (JStr "folder1") "/app/file_map.json" "/w/report.txt" w2
            = (inr tt, w3, t2)
          ∧ remote_calls t2
            = [FilesUpdate (JStr "id0") {| filename := "/w/report.txt"; body := c2 |}]
          ∧ fs w3 = fs w2
          ∧ entry w3 "/app/file_map.json" "report.txt" = Some (JStr "id0").
Proof.
  apply (upload_twice_creates_then_updates memory_drive (JStr "folder1")
           "/app/file_map.json" "/w/report.txt"
           (world true [("/w/report.txt", Text "v1")]) (Text "v1") ∅
           {["id" := JStr "id0"]} (JStr "id0") 1).
  - reflexivity.
  - by vm_compute.
  - by split.
  - by vm_compute.
  - by vm_compute.
  - apply world_writable. by vm_compute.
  - by vm_compute.
  - by vm_compute.
  - reflexivity.
Defined.

Lemma no_network_short_circuit_witness :
  let w := world false [("/w/report.txt", Text "v1")] in
  connected w = false
  ∧ ∃ t, upload_file memory_drive (JStr "folder1") "/app/file_map.json" "/w/report.txt" w
           = (inr tt, w, t)
         ∧ remote_calls t = []
         ∧ touched t = []
         ∧ logged t = [(INFO, CheckingConnectivity); (WARNING, NoConnectionDetected);
                       (ERROR, CannotUploadNoConnection "/w/report.txt")].
Proof.
  split; [reflexivity |].
  apply (no_network_short_circuit memory_drive (JStr "folder1") "/app/file_map.json"
           "/w/report.txt" (world false [("/w/report.txt", Text "v1")])).
  reflexivity.
Defined.

(** A delete that the service refuses with status 404, and one that
    fails for another reason. *)
Lemma delete_failure_keeps_mapping_witness :
  let doc := Json (JObj {["report.txt" := JStr "id123"]}) in
  let w := world true [("/app/file_map.json", doc)] in
  (∃ w' t,
     delete_file_from_drive (failing_drive (HttpError 404)) "/app/file_map.json"
       "report.txt" w = (inr tt, w', t)
     ∧ fs w' = fs w
     ∧ entry w' "/app/file_map.json" "report.txt" = Some (JStr "id123")
     ∧ (truthy (JStr "id123") = true →
        remote_calls t = [FilesDelete (JStr "id123")]
        ∧ last t = Some (Log ERROR (HttpErrorDeleting "report.txt" (HttpError 404)))))
  ∧ (∃ w' t,
       delete_file_from_drive (failing_drive (OtherError "Network down"))
         "/app/file_map.json" "report.txt" w = (inr tt, w', t)
       ∧ fs w' = fs w
       ∧ entry w' "/app/file_map.json" "report.txt" = Some (JStr "id123")
       ∧ (truthy (JStr "id123") = true →
          remote_calls t = [FilesDelete (JStr "id123")]
          ∧ last t = Some (Log ERROR (UnexpectedErrorDeleting "report.txt"
                                        (OtherError "Network down"))))).
Proof.
  cbv zeta. split.
  - apply (proj1 (delete_failure_keeps_mapping (failing_drive (HttpError 404))
                    "/app/file_map.json" "report.txt" (JStr "id123")
                    (world true [("/app/file_map.json",
                                  Json (JObj {["report.txt" := JStr "id123"]}))])
                    ltac:(by vm_compute))
             (HttpError 404) 0 eq_refl).
  - apply (proj1 (delete_failure_keeps_mapping (failing_drive (OtherError "Network down"))
                    "/app/file_map.json" "report.txt" (JStr "id123")
                    (world true [("/app/file_map.json",
                                  Json (JObj {["report.txt" := JStr "id123"]}))])
                    ltac:(by vm_compute))
             (OtherError "Network down") 0 eq_refl).
Defined.

(** A delete of a name that is not tracked, and two deletes in a row of
    one that is. *)
Lemma delete_untracked_is_noop_witness :
  let doc := Json (JObj {["report.txt" := JStr "id123"]}) in
  let w := world true [("/app/file_map.json", doc)] in
  (∃ t, delete_file_from_drive memory_drive "/app/file_map.json" "notes.txt" w
          = (inr tt, w, t)
        ∧ remote_calls t = []
        ∧ last t = Some (Log WARNING (NotFoundInDriveMapping "notes.txt")))
  ∧ (∃ w1 t1,
       delete_file_from_drive memory_drive "/app/file_map.json" "report.txt" w
         = (inr tt, w1, t1)
       ∧ remote_calls t1 = [FilesDelete (JStr "id123")]
       ∧ entry w1 "/app/file_map.json" "report.txt" = None
       ∧ ∃ t2, delete_file_from_drive memory_drive "/app/file_map.json" "report.txt" w1
                 = (inr tt, w1, t2)
               ∧ remote_calls t2 = []).
Proof.
  cbv zeta.
  destruct (delete_untracked_is_noop memory_drive "/app/file_map.json" "notes.txt")
    as [Huntracked _].
  destruct (delete_untracked_is_noop memory_drive "/app/file_map.json" "report.txt")
    as [_ Htwice].
  split.
  - apply Huntracked. by vm_compute.
  - apply (Htwice _ (JStr "id123") (JStr "") 0).
    + by vm_compute.
    + reflexivity.
    + reflexivity.
    + apply world_writable. by vm_compute.
Defined.

(** A mapping document that holds text that is no JSON. *)
Lemma corrupt_document_self_heals_witness :
  let w := world true [("/app/file_map.json", Text "{invalid")] in
  (∃ t, get_file_id "/app/file_map.json" "report.txt" w = (inr None_, w, t))
  ∧ (∃ t, save_file_mapping "/app/file_map.json" "report.txt" (JStr "id123") w
            = (inr tt,
               set_fs (insert "/app/file_map.json"
                         (Json (JObj {["report.txt" := JStr "id123"]}))) w, t)).
Proof.
  apply (corrupt_document_self_heals (world true [("/app/file_map.json", Text "{invalid")])
           "/app/file_map.json" "report.txt" (JStr "id123") (Text "{invalid")).
  - by vm_compute.
  - reflexivity.
  - apply world_writable. by vm_compute.
Defined.

(** The four ways a resolve goes: the list call fails; a folder is
    listed; none is listed and one is created; none is listed and the
    creation fails. *)
Lemma resolve_finds_or_creates_witness :
  let w := world true [] in
  (∃ w' t, get_or_create_drive_folder (failing_drive OSError) "w" w = (inr None_, w', t)
           ∧ remote_calls t = [list_folders "w"])
  ∧ (∃ w' t, get_or_create_drive_folder (drive_with_folder "folder7") "w" w
             = (inr (JStr "folder7"), w', t)
             ∧ remote_calls t = [list_folders "w"])
  ∧ (∃ w' t, get_or_create_drive_folder memory_drive "w" w = (inr (JStr "id0"), w', t)
             ∧ remote_calls t = [list_folders "w"; create_folder "w"])
  ∧ (∃ w' t, get_or_create_drive_folder drive_without_quota "w" w = (inr None_, w', t)
             ∧ remote_calls t = [list_folders "w"; create_folder "w"]).
Proof.
  cbv zeta. split_and!.
  - destruct (resolve_finds_or_creates (failing_drive OSError) "w" (world true []))
      as (_ & Hfails & _).
    by apply (Hfails OSError 0).
  - destruct (resolve_finds_or_creates (drive_with_folder "folder7") "w" (world true []))
      as (_ & _ & Hfound & _).
    by apply (Hfound {["files" := JArr [JObj {["id" := JStr "folder7"]}]]}
                {["id" := JStr "folder7"]} [] (JStr "folder7") 0).
  - destruct (resolve_finds_or_creates memory_drive "w" (world true []))
      as (_ & _ & _ & Hnone).
    destruct (Hnone {["files" := JArr []]} 0 eq_refl eq_refl) as [Hcreated _].
    by apply (Hcreated {["id" := JStr "id0"]} (JStr "id0") 1).
  - destruct (resolve_finds_or_creates drive_without_quota "w" (world true []))
      as (_ & _ & _ & Hnone).
    destruct (Hnone {["files" := JArr []]} 0 eq_refl eq_refl) as [_ Hrefused].
    by apply (Hrefused (HttpError 403) 0).
Defined.

End runs.

(** * Further properties of the identity mapping store *)

Section store_frames.
Context {S : Type}.
Implicit Types (w : World S) (service : Service S).

Lemma same_but_refl path w : same_but path w w.
Proof. by repeat split. Qed.

Lemma same_but_insert path c w : same_but path w (set_fs (insert path c) w).
Proof. repeat split. intros p Hp. cbn. by rewrite lookup_insert_ne. Qed.

Lemma save_file_mapping_frame path name id w r w' t :
  save_file_mapping path name id w = (r, w', t) →
  same_but path w w' ∧ remote_calls t = [].
Proof.
  unfold save_file_mapping, bind, try, path_exists, open_read, open_write, json_dump,
    log, emit, lift, ret, raise.
  intros Hrun. cbn in Hrun.
  repeat (case_match; simplify_eq/=);
    (split; [|done]); try apply same_but_refl;
    repeat split; intros p Hp; cbn; by rewrite ?lookup_insert_ne.
Qed.

Lemma remove_file_mapping_frame path name w r w' t :
  remove_file_mapping path name w = (r, w', t) →
  same_but path w w' ∧ remote_calls t = [].
Proof.
  unfold remove_file_mapping, bind, try, path_exists, open_read, open_write, json_dump,
    log, emit, lift, ret, raise.
  intros Hrun. cbn in Hrun.
  repeat (case_match; simplify_eq/=);
    (split; [|done]); try apply same_but_refl;
    repeat split; intros p Hp; cbn; by rewrite ?lookup_insert_ne.
Qed.
End store_frames.

Section store_extras.
Context {S : Type}.
Implicit Types (w : World S) (service : Service S).

#[local] Arguments get_file_id : simpl never.
#[local] Arguments save_file_mapping : simpl never.
#[local] Arguments remove_file_mapping : simpl never.

Lemma writable_after_write w path c :
  writable w path → c ≠ Directory → writable (set_fs (insert path c) w) path.
Proof.
  intros [Hro _] Hc. split; [done |]. cbn. rewrite lookup_insert_eq. by intros [= ->].
Qed.

(** X1. After [save_file_mapping] of [name -> id] on a document it can
    start from and write, [get_file_id] of [name] returns [id], and
    [get_file_id] of every other name returns what it returned before. *)
Theorem save_then_get_round_trip w path name id m :
  stored_mapping w path = Some m →
  writable w path →
  ∃ w1 t1,
    save_file_mapping path name id w = (inr tt, w1, t1)
    ∧ (∃ t, get_file_id path name w1 = (inr id, w1, t))
    ∧ ∀ other, other ≠ name →
        ∃ t t', get_file_id path other w1 = (inr (default None_ (m !! other)), w1, t)
                ∧ get_file_id path other w = (inr (default None_ (m !! other)), w, t').
Proof.
  intros Hm Hw.
  destruct (save_file_mapping_run w path name id m Hm Hw) as (t1 & Hsave & _).
  eexists _, t1. split_and!; [exact Hsave | |].
  - destruct (get_file_id_run (set_fs (insert path (Json (JObj (<[name:=id]> m)))) w)
                path name) as (t & Hget & _).
    rewrite entry_set_fs, lookup_insert_eq in Hget. eauto.
  - intros other Hother.
    destruct (get_file_id_run (set_fs (insert path (Json (JObj (<[name:=id]> m)))) w)
                path other) as (t & Hget & _).
    rewrite entry_set_fs, lookup_insert_ne in Hget by done.
    destruct (get_file_id_run w path other) as (t' & Hget' & _).
    rewrite (stored_mapping_entry w path other m Hm) in Hget'. eauto.
Qed.

(** X2. [save_file_mapping] returns normally when the document is
    missing, is text the parser rejects, or holds a JSON object (also when
    the write then fails).  It raises, with nothing written, in the other
    cases: [OSError] for a directory or a file that may not be read,
    [UnicodeDecodeError] for a file that is no text, [TypeError] for a JSON
    document that is no object. *)
Theorem save_raises_on_unusable_document w path name id :
  let '(r, w', _) := save_file_mapping path name id w in
  match fs w !! path with
  | None | Some (Text _) | Some (Json (JObj _)) => r = inr tt
  | Some Directory | Some Locked => r = inl OSError ∧ w' = w
  | Some Binary => r = inl UnicodeDecodeError ∧ w' = w
  | Some (Json _) => r = inl TypeError ∧ w' = w
  end.
Proof.
  unfold save_file_mapping, bind, try, path_exists, open_read, open_write, json_dump,
    log, emit, lift, ret, raise.
  destruct (fs w !! path) as [[| | | s | [| | | | |m]]|] eqn:E; cbn; rewrite ?E; cbn;
    try done; rewrite ?E; by case_bool_decide.
Qed.

(** [put] when the document may not be written: the error is logged
    and nothing changes. *)
Lemma save_file_mapping_readonly_run w path name id m :
  stored_mapping w path = Some m →
  path ∈ readonly w →
  ∃ t, save_file_mapping path name id w = (inr tt, w, t)
       ∧ remote_calls t = []
       ∧ last t = Some (Log ERROR (FailedToWriteMapping OSError)).
Proof.
  intros Hm Hro.
  unfold save_file_mapping, stored_mapping in *.
  unfold bind, try, path_exists, open_read, open_write, json_dump, log, emit, lift, ret.
  destruct (fs w !! path) as [[| | | s | [| | | | |m']]|] eqn:E; try discriminate;
    cbn; rewrite ?E; cbn; rewrite bool_decide_eq_true_2 by done; cbn; eauto.
Qed.

(** X3. When the mapping document may not be written,
    [save_file_mapping] returns normally with the world unchanged, its
    last log line is the "failed to write" error, and [get_file_id] still
    returns what was recorded before. *)
Theorem save_write_failure_is_swallowed w path name id m :
  stored_mapping w path = Some m →
  path ∈ readonly w →
  ∃ t, save_file_mapping path name id w = (inr tt, w, t)
       ∧ last t = Some (Log ERROR (FailedToWriteMapping OSError))
       ∧ ∃ t', get_file_id path name w = (inr (default None_ (m !! name)), w, t').
Proof.
  intros Hm Hro.
  destruct (save_file_mapping_readonly_run w path name id m Hm Hro) as (t & Hrun & _ & Hlast).
  exists t. split_and!; [done | done |].
  destruct (get_file_id_run w path name) as (t' & Hget & _).
  rewrite (stored_mapping_entry w path name m Hm) in Hget. eauto.
Qed.

(** X4. [remove_file_mapping] of a recorded name, on a writable
    document, leaves the document holding the mapping without that name:
    [get_file_id] of the name is then [None], every other entry is as
    before, and no other file, nor the remote state, is changed. *)
Theorem remove_deletes_only_that_entry w path name m :
  mapping_at w path = Some m →
  is_Some (m !! name) →
  writable w path →
  ∃ w1 t1,
    remove_file_mapping path name w = (inr tt, w1, t1)
    ∧ mapping_at w1 path = Some (delete name m)
    ∧ (∃ t, get_file_id path name w1 = (inr None_, w1, t))
    ∧ (∀ other, other ≠ name → entry w1 path other = entry w path other)
    ∧ same_but path w w1.
Proof.
  intros Hm Hname Hw.
  destruct (remove_file_mapping_run w path name m Hm) as (w1 & t1 & Hrun & _ & _ & Hw1).
  specialize (Hw1 Hw Hname). subst w1.
  eexists _, t1. split_and!; [exact Hrun | ..].
  - unfold mapping_at. cbn. by rewrite lookup_insert_eq.
  - destruct (get_file_id_run (set_fs (insert path (Json (JObj (delete name m)))) w)
                path name) as (t & Hget & _).
    rewrite entry_set_fs, lookup_delete_eq in Hget. eauto.
  - intros other Hother. rewrite entry_set_fs, lookup_delete_ne by done.
    unfold entry. by rewrite Hm.
  - apply same_but_insert.
Qed.

(** X5. [remove_file_mapping] of a name without an entry leaves the
    world as it is.  It returns normally, except on a JSON document that
    is no object, where [in] or [del] may raise [TypeError]. *)
Theorem remove_untracked_writes_nothing w path name :
  entry w path name = None →
  ∃ r t, remove_file_mapping path name w = (r, w, t)
         ∧ (r = inr tt
            ∨ (r = inl TypeError
               ∧ ∃ j, fs w !! path = Some (Json j) ∧ mapping_at w path = None)).
Proof.
  unfold entry, mapping_at, remove_file_mapping.
  unfold bind, try, path_exists, open_read, open_write, json_dump, log, emit, lift, ret.
  intros Hnone.
  destruct (fs w !! path) as [[| | | s | [| | | | |m]]|] eqn:E; cbn; rewrite ?E; cbn;
    eauto 8.
  - destruct (contains name s0); cbn; eauto 8.
  - destruct (existsb _ l); cbn; eauto 8.
  - rewrite Hnone. cbn. eauto.
Qed.

(** X6. Two [save_file_mapping] of the same name in a row leave the
    world that the second alone leaves: the later identifier replaces the
    earlier. *)
Theorem save_twice_is_last_save w path name id1 id2 m :
  stored_mapping w path = Some m →
  writable w path →
  ∃ w1 t1 w2 t2 t,
    save_file_mapping path name id1 w = (inr tt, w1, t1)
    ∧ save_file_mapping path name id2 w1 = (inr tt, w2, t2)
    ∧ save_file_mapping path name id2 w = (inr tt, w2, t).
Proof.
  intros Hm Hw.
  destruct (save_file_mapping_run w path name id1 m Hm Hw) as (t1 & Hsave1 & _).
  destruct (save_file_mapping_run w path name id2 m Hm Hw) as (t & Hsave & _).
  destruct (save_file_mapping_run
              (set_fs (insert path (Json (JObj (<[name:=id1]> m)))) w)
              path name id2 (<[name:=id1]> m)) as (t2 & Hsave2 & _).
  { unfold stored_mapping. cbn. by rewrite lookup_insert_eq. }
  { by apply writable_after_write. }
  rewrite set_fs_insert_twice, insert_insert_eq in Hsave2.
  eauto 10.
Qed.

(** X7. The three operations of the mapping store send no remote call
    and leave connectivity, permissions, the remote state and every file
    but the mapping document as they are; [get_file_id] changes nothing at
    all and never raises. *)
Theorem store_touches_only_its_document path name id w :
  let '(_, w1, t1) := save_file_mapping path name id w in
  let '(_, w2, t2) := remove_file_mapping path name w in
  let '(r3, w3, t3) := get_file_id path name w in
  same_but path w w1 ∧ same_but path w w2 ∧ w3 = w
  ∧ (∃ v, r3 = inr v)
  ∧ remote_calls (t1 ++ t2 ++ t3) = [].
Proof.
  destruct (save_file_mapping path name id w) as [[r1 w1] t1] eqn:H1.
  destruct (remove_file_mapping path name w) as [[r2 w2] t2] eqn:H2.
  destruct (get_file_id_run w path name) as (t3 & -> & Ht3).
  apply save_file_mapping_frame in H1 as [? Ht1].
  apply remove_file_mapping_frame in H2 as [? Ht2].
  split_and!; [done | done | done | eauto |].
  by rewrite !remote_calls_app, Ht1, Ht2, Ht3.
Qed.

End store_extras.

(** * Further properties of the remote sync operations *)

Section sync_extras.
Context {S : Type}.
Implicit Types (w : World S) (service : Service S).

#[local] Arguments is_internet_connected : simpl never.
#[local] Arguments MediaFileUpload : simpl never.
#[local] Arguments get_file_id : simpl never.
#[local] Arguments save_file_mapping : simpl never.
#[local] Arguments remove_file_mapping : simpl never.

(** X8. Whatever the service replies, [get_or_create_drive_folder]
    sends the list call alone or the list call followed by one
    create-folder call, touches no local file, and changes the remote
    state only. *)
Theorem resolve_lists_then_creates_at_most service folder_name w :
  let '(_, w', t) := get_or_create_drive_folder service folder_name w in
  (remote_calls t = [list_folders folder_name]
   ∨ remote_calls t = [list_folders folder_name; create_folder folder_name])
  ∧ touched t = []
  ∧ ∃ s, w' = set_remote s w.
Proof.
  unfold get_or_create_drive_folder, bind, try, execute, lift, log, emit, ret.
  cbn. repeat (case_match; simplify_eq/=); split_and!; eauto.
Qed.

(** X9. When the first folder the service lists has no [id],
    [get_or_create_drive_folder] raises [KeyError]: [files[0]["id"]] is
    read outside the two [try] blocks.  Only the list call was sent. *)
Theorem resolve_raises_on_folder_without_id service folder_name w results first rest s1 :
  service (list_folders folder_name) (remote w) = (inr (JObj results), s1) →
  results !! "files" = Some (JArr (JObj first :: rest)) →
  first !! "id" = None →
  get_or_create_drive_folder service folder_name w
  = (inl KeyError, set_remote s1 w, [Remote (list_folders folder_name)]).
Proof.
  intros Hreply Hfiles Hid.
  unfold get_or_create_drive_folder, bind, try, execute, lift, log, emit, ret.
  rewrite Hreply. cbn. rewrite Hfiles. cbn. by rewrite Hid.
Qed.

(** An upload of a file that is not tracked: one create call, whatever
    its reply, and no exception. *)
Lemma upload_file_untracked service folder_id mapping_path file_path w c :
  connected w = true →
  fs w !! file_path = Some c → readable c →
  truthy (default None_ (entry w mapping_path (basename file_path))) = false →
  ∃ w' t, upload_file service folder_id mapping_path file_path w = (inr tt, w', t)
          ∧ remote_calls t
            = [create_file (basename file_path) folder_id
                 {| filename := file_path; body := c |}].
Proof.
  intros Hup Hc Hread Hentry.
  unfold upload_file, bind.
  rewrite (is_internet_connected_up w Hup). cbn.
  rewrite (MediaFileUpload_run w file_path c Hc Hread).
  destruct (get_file_id_run w mapping_path (basename file_path)) as (t0 & -> & Ht0).
  rewrite Hentry.
  unfold try, bind, execute, lift, log, emit. cbn.
  destruct (service _ _) as [[e|v] s1]; cbn.
  - eexists _, _. split; [reflexivity |]. cbn. by rewrite remote_calls_app, Ht0.
  - destruct (get v "id") as [e|file_id]; cbn.
    + eexists _, _. split; [reflexivity |]. cbn. by rewrite remote_calls_app, Ht0.
    + destruct (save_file_mapping mapping_path (basename file_path) file_id
                  (set_remote s1 w)) as [[[e|[]] w1] t1] eqn:Hsave;
        apply save_file_mapping_frame in Hsave as [_ Ht1]; cbn;
        (eexists _, _; split; [reflexivity |]); cbn;
        rewrite remote_calls_app, Ht0; cbn; by rewrite !remote_calls_app, Ht1.
Qed.

(** X10. When the create call of an upload fails with an exception,
    [upload_file] returns normally, no file is changed (the name stays
    without an entry), the one remote call was that create, and the last
    log line is the "error during upload" line with the exception. *)
Theorem upload_failed_create_changes_nothing
    service folder_id mapping_path file_path w c e s1 :
  let name := basename file_path in
  let media := {| filename := file_path; body := c |} in
  connected w = true →
  fs w !! file_path = Some c → readable c →
  entry w mapping_path name = None →
  service (create_file name folder_id media) (remote w) = (inl e, s1) →
  ∃ t, upload_file service folder_id mapping_path file_path w
         = (inr tt, set_remote s1 w, t)
       ∧ remote_calls t = [create_file name folder_id media]
       ∧ last t = Some (Log ERROR (ErrorDuringUpload e)).
Proof.
  intros name media Hup Hc Hread Hentry Hreply.
  unfold upload_file, bind.
  rewrite (is_internet_connected_up w Hup). cbn.
  rewrite (MediaFileUpload_run w file_path c Hc Hread).
  destruct (get_file_id_run w mapping_path (basename file_path)) as (t0 & -> & Ht0).
  fold name. rewrite Hentry.
  unfold try, bind, execute, lift, log, emit. cbn. fold media. rewrite Hreply. cbn.
  eexists. split_and!; [reflexivity | |].
  - cbn. by rewrite remote_calls_app, Ht0.
  - by rewrite !last_cons, last_app.
Qed.

(** Whatever happens, an upload writes no file but the mapping document
    and sends at most one call, a create or an update. *)
Lemma upload_file_frame service folder_id mapping_path file_path w r w' t :
  upload_file service folder_id mapping_path file_path w = (r, w', t) →
  (∀ p, p ≠ mapping_path → fs w' !! p = fs w !! p)
  ∧ (remote_calls t = []
     ∨ (∃ m, remote_calls t = [create_file (basename file_path) folder_id m])
     ∨ (∃ id m, remote_calls t = [FilesUpdate id m])).
Proof.
  intros Hrun.
  assert (let '(_, w', t) := upload_file service folder_id mapping_path file_path w in
          (∀ p, p ≠ mapping_path → fs w' !! p = fs w !! p)
          ∧ (remote_calls t = []
             ∨ (∃ m, remote_calls t = [create_file (basename file_path) folder_id m])
             ∨ (∃ id m, remote_calls t = [FilesUpdate id m]))) as Hall.
  {
    unfold upload_file, bind.
    destruct (connected w) eqn:Hnet.
    2: { rewrite (is_internet_connected_down w Hnet). cbn. eauto. }
    rewrite (is_internet_connected_up w Hnet). cbn.
    unfold MediaFileUpload, open_read, bind, ret.
    destruct (get_file_id_run w mapping_path (basename file_path)) as (t0 & Hget & Ht0).
    unfold try, bind, execute, lift, log, emit.
    destruct (fs w !! file_path) as [[| | | s | j]|]; cbn; eauto; rewrite Hget;
      (destruct (truthy _); cbn;
       [ destruct (service _ _) as [[e|v] s1]; cbn;
         (split; [done |]); right; right; eexists _, _;
         by rewrite remote_calls_app, Ht0
       | destruct (service _ _) as [[e|v] s1]; cbn;
         [ split; [done |]; right; left; eexists; by rewrite remote_calls_app, Ht0 |];
         destruct (get v "id") as [e|file_id]; cbn;
         [ split; [done |]; right; left; eexists; by rewrite remote_calls_app, Ht0 |];
         destruct (save_file_mapping mapping_path (basename file_path) file_id
                     (set_remote s1 w)) as [[[e|[]] w1] t1] eqn:Hsave;
         apply save_file_mapping_frame in Hsave as [(_ & _ & _ & Hfs) Ht1]; cbn;
         (split; [exact Hfs |]); right; left; eexists;
         rewrite remote_calls_app, Ht0; cbn; by rewrite !remote_calls_app, Ht1 ]).
}
  by rewrite Hrun in Hall.
Qed.

(** X11. Whatever the inputs, [upload_file] changes no file but the
    mapping document (the uploaded file is never written), and sends
    either nothing, or one create call for the base name, or one update
    call: never a delete, never two calls. *)
Theorem upload_sends_one_call_and_keeps_files service folder_id mapping_path file_path w :
  let '(_, w', t) := upload_file service folder_id mapping_path file_path w in
  (∀ p, p ≠ mapping_path → fs w' !! p = fs w !! p)
  ∧ (remote_calls t = []
     ∨ (∃ m, remote_calls t = [create_file (basename file_path) folder_id m])
     ∨ (∃ id m, remote_calls t = [FilesUpdate id m])).
Proof.
  destruct (upload_file service folder_id mapping_path file_path w) as [[r w'] t] eqn:Hrun.
  by apply (upload_file_frame _ _ _ _ _ _ _ _ Hrun).
Qed.

(** A first upload that the service answers: the reply's [id] (or [None])
    is recorded for the name. *)
Lemma upload_file_records service folder_id mapping_path file_path w c m file s1 :
  let name := basename file_path in
  let media := {| filename := file_path; body := c |} in
  connected w = true →
  fs w !! file_path = Some c → readable c →
  stored_mapping w mapping_path = Some m → m !! name = None →
  writable w mapping_path →
  service (create_file name folder_id media) (remote w) = (inr (JObj file), s1) →
  ∃ t, upload_file service folder_id mapping_path file_path w
         = (inr tt,
            set_fs (insert mapping_path
                      (Json (JObj (<[name := default None_ (file !! "id")]> m))))
              (set_remote s1 w), t)
       ∧ remote_calls t = [create_file name folder_id media].
Proof.
  intros name media Hup Hc Hread Hm Hnone Hw Hreply.
  pose proof (stored_mapping_entry w mapping_path name m Hm) as Hentry.
  rewrite Hnone in Hentry.
  destruct (save_file_mapping_run (set_remote s1 w) mapping_path name
              (default None_ (file !! "id")) m Hm Hw) as (ts & Hsave & Hts).
  destruct (get_file_id_run w mapping_path name) as (t0 & Hget & Ht0).
  unfold upload_file, bind.
  rewrite (is_internet_connected_up w Hup). cbn.
  rewrite (MediaFileUpload_run w file_path c Hc Hread).
  fold name. rewrite Hget, Hentry. cbn.
  unfold try, bind, execute, lift, log, emit. fold media. rewrite Hreply. cbn.
  rewrite Hsave. cbn. eexists. split; [reflexivity |].
  cbn. rewrite remote_calls_app, Ht0. cbn. by rewrite remote_calls_app, Hts.
Qed.

(** X12. When the reply to the create call carries no [id] (or one that
    [if existing_file_id] takes for absent), the entry recorded for the
    name is that value, and the next upload of the file sends a create
    call again instead of an update. *)
Theorem upload_reply_without_id_creates_again
    service folder_id mapping_path file_path w c m file s1 :
  let name := basename file_path in
  let media := {| filename := file_path; body := c |} in
  let id := default None_ (file !! "id") in
  connected w = true →
  fs w !! file_path = Some c → readable c →
  stored_mapping w mapping_path = Some m → m !! name = None →
  writable w mapping_path →
  service (create_file name folder_id media) (remote w) = (inr (JObj file), s1) →
  truthy id = false →
  ∃ w1 t1,
    upload_file service folder_id mapping_path file_path w = (inr tt, w1, t1)
    ∧ remote_calls t1 = [create_file name folder_id media]
    ∧ entry w1 mapping_path name = Some id
    ∧ ∀ w2 c2,
        connected w2 = true →
        fs w2 !! mapping_path = fs w1 !! mapping_path →
        fs w2 !! file_path = Some c2 → readable c2 →
        ∃ w3 t2,
          upload_file service folder_id mapping_path file_path w2 = (inr tt, w3, t2)
          ∧ remote_calls t2
            = [create_file name folder_id {| filename := file_path; body := c2 |}].
Proof.
  intros name media id Hup Hc Hread Hm Hnone Hw Hreply Hid.
  destruct (upload_file_records service folder_id mapping_path file_path w c m file s1)
    as (t1 & Hrun & Hcalls); try done.
  eexists _, t1. split_and!; [exact Hrun | exact Hcalls | |].
  - rewrite entry_set_fs. apply lookup_insert_eq.
  - intros w2 c2 Hup2 Hsame Hc2 Hread2.
    apply upload_file_untracked; try done.
    rewrite (entry_fs w2 _ mapping_path (basename file_path) Hsame), entry_set_fs.
    fold name. by rewrite lookup_insert_eq.
Qed.

(** X13. When the mapping document may not be written, an upload of a
    new file still sends the create call and returns normally; the write
    error is logged, the last log line is nevertheless the "uploaded"
    line, no file is changed and the name is still without an entry. *)
Theorem upload_with_unwritable_mapping_forgets
    service folder_id mapping_path file_path w c m file s1 :
  let name := basename file_path in
  let media := {| filename := file_path; body := c |} in
  connected w = true →
  fs w !! file_path = Some c → readable c →
  stored_mapping w mapping_path = Some m → m !! name = None →
  mapping_path ∈ readonly w →
  service (create_file name folder_id media) (remote w) = (inr (JObj file), s1) →
  ∃ t, upload_file service folder_id mapping_path file_path w
         = (inr tt, set_remote s1 w, t)
       ∧ remote_calls t = [create_file name folder_id media]
       ∧ Log ERROR (FailedToWriteMapping OSError) ∈ t
       ∧ last t = Some (Log INFO (Uploaded name))
       ∧ entry (set_remote s1 w) mapping_path name = None.
Proof.
  intros name media Hup Hc Hread Hm Hnone Hro Hreply.
  pose proof (stored_mapping_entry w mapping_path name m Hm) as Hentry.
  rewrite Hnone in Hentry.
  destruct (save_file_mapping_readonly_run (set_remote s1 w) mapping_path name
              (default None_ (file !! "id")) m Hm Hro) as (ts & Hsave & Hts & Hlast).
  destruct (get_file_id_run w mapping_path name) as (t0 & Hget & Ht0).
  unfold upload_file, bind.
  rewrite (is_internet_connected_up w Hup). cbn.
  rewrite (MediaFileUpload_run w file_path c Hc Hread).
  fold name. rewrite Hget, Hentry. cbn.
  unfold try, bind, execute, lift, log, emit. fold media. rewrite Hreply. cbn.
  rewrite Hsave. cbn. eexists. split_and!; [reflexivity | ..].
  - cbn. rewrite remote_calls_app, Ht0. cbn. by rewrite remote_calls_app, Hts.
  - apply last_Some in Hlast as [ts' ->].
    set_solver.
  - by rewrite !last_cons, last_app, last_cons, last_app.
  - done.
Qed.

(** X16. The mapping is keyed by base name: after a first upload of
    [path1], an upload of another path with the same base name sends an
    update call on the identifier recorded for [path1], with the content
    of the second file, and the mapping holds the one entry. *)
Theorem same_base_name_updates_same_object
    service folder_id mapping_path path1 path2 w c1 c2 m file id s1 :
  let name := basename path1 in
  let media := {| filename := path1; body := c1 |} in
  basename path2 = name →
  connected w = true →
  fs w !! path1 = Some c1 → readable c1 →
  fs w !! path2 = Some c2 → readable c2 →
  path2 ≠ mapping_path →
  stored_mapping w mapping_path = Some m → m !! name = None →
  writable w mapping_path →
  service (create_file name folder_id media) (remote w) = (inr (JObj file), s1) →
  file !! "id" = Some id → truthy id = true →
  ∃ w1 t1 w2 t2,
    upload_file service folder_id mapping_path path1 w = (inr tt, w1, t1)
    ∧ upload_file service folder_id mapping_path path2 w1 = (inr tt, w2, t2)
    ∧ remote_calls (t1 ++ t2)
      = [create_file name folder_id media;
         FilesUpdate id {| filename := path2; body := c2 |}]
    ∧ mapping_at w2 mapping_path = Some (<[name := id]> m).
Proof.
  intros name media Hbase Hup Hc1 Hread1 Hc2 Hread2 Hne Hm Hnone Hw Hreply Hfid Hid.
  destruct (upload_file_records service folder_id mapping_path path1 w c1 m file s1)
    as (t1 & Hrun1 & Hcalls1); try done.
  fold name in Hrun1. rewrite Hfid in Hrun1. cbn in Hrun1.
  set (w1 := set_fs (insert mapping_path (Json (JObj (<[name := id]> m))))
               (set_remote s1 w)) in *.
  destruct (upload_file_tracked service folder_id mapping_path path2 w1 c2 id)
    as (w2 & t2 & Hrun2 & Hfs2 & Hcalls2); try done.
  - subst w1. cbn. by rewrite lookup_insert_ne.
  - rewrite Hbase. subst w1. rewrite entry_set_fs. apply lookup_insert_eq.
  - exists w1, t1, w2, t2. split_and!; [done | done | |].
    + by rewrite remote_calls_app, Hcalls1, Hcalls2.
    + unfold mapping_at. rewrite Hfs2. subst w1. cbn. by rewrite lookup_insert_eq.
Qed.


(** A delete that goes through. *)
Lemma delete_file_from_drive_ok service mapping_path name w m id v s1 :
  mapping_at w mapping_path = Some m → m !! name = Some id → truthy id = true →
  service (FilesDelete id) (remote w) = (inr v, s1) →
  writable w mapping_path →
  ∃ t, delete_file_from_drive service mapping_path name w
         = (inr tt,
            set_fs (insert mapping_path (Json (JObj (delete name m)))) (set_remote s1 w), t)
       ∧ remote_calls t = [FilesDelete id]
       ∧ last t = Some (Log INFO (DeletedFromDrive name)).
Proof.
  intros Hm Hmn Hid Hreply Hw.
  assert (entry w mapping_path name = Some id) as Hentry.
  { unfold entry. by rewrite Hm. }
  destruct (remove_file_mapping_run (set_remote s1 w) mapping_path name m Hm)
    as (w1 & tr & Hrm & Htr & _ & Hw1).
  specialize (Hw1 Hw (ex_intro _ id Hmn)). subst w1.
  unfold delete_file_from_drive, bind.
  destruct (get_file_id_run w mapping_path name) as (t0 & -> & Ht0).
  rewrite Hentry. cbn. rewrite Hid. cbn.
  unfold try, bind, log, emit, execute. cbn. rewrite Hreply. cbn.
  rewrite Hrm. cbn.
  eexists. split_and!; [reflexivity | |].
  - rewrite remote_calls_app, Ht0. cbn. by rewrite remote_calls_app, Htr.
  - by rewrite last_app, last_cons, last_cons, last_app.
Qed.

(** X17. A delete that goes through (the entry is there, the service
    answers, the document is writable) sends the one delete call, leaves
    the mapping without that name and with every other entry as before,
    changes no other file, and its last log line is the "deleted from
    Drive" line. *)
Theorem delete_keeps_other_entries service mapping_path name w m id v s1 :
  mapping_at w mapping_path = Some m → m !! name = Some id → truthy id = true →
  service (FilesDelete id) (remote w) = (inr v, s1) →
  writable w mapping_path →
  ∃ w1 t,
    delete_file_from_drive service mapping_path name w = (inr tt, w1, t)
    ∧ remote_calls t = [FilesDelete id]
    ∧ mapping_at w1 mapping_path = Some (delete name m)
    ∧ (∀ other, other ≠ name → entry w1 mapping_path other = entry w mapping_path other)
    ∧ (∀ p, p ≠ mapping_path → fs w1 !! p = fs w !! p)
    ∧ last t = Some (Log INFO (DeletedFromDrive name)).
Proof.
  intros Hm Hmn Hid Hreply Hw.
  destruct (delete_file_from_drive_ok service mapping_path name w m id v s1)
    as (t & Hrun & Hcalls & Hlast); try done.
  eexists _, t. split_and!; [exact Hrun | done | | | | done].
  - unfold mapping_at. cbn. by rewrite lookup_insert_eq.
  - intros other Hother. rewrite entry_set_fs, lookup_delete_ne by done.
    unfold entry. by rewrite Hm.
  - intros p Hp. cbn. by rewrite lookup_insert_ne.
Qed.

(** Whatever happens, a delete returns, writes no file but the mapping
    document, and sends at most the delete call on the recorded
    identifier. *)
Lemma delete_file_from_drive_frame service mapping_path name w r w' t :
  delete_file_from_drive service mapping_path name w = (r, w', t) →
  r = inr tt
  ∧ (∀ p, p ≠ mapping_path → fs w' !! p = fs w !! p)
  ∧ (remote_calls t = []
     ∨ ∃ id, entry w mapping_path name = Some id ∧ truthy id = true
             ∧ remote_calls t = [FilesDelete id]).
Proof.
  intros Hrun.
  assert (let '(r, w', t) := delete_file_from_drive service mapping_path name w in
          r = inr tt
          ∧ (∀ p, p ≠ mapping_path → fs w' !! p = fs w !! p)
          ∧ (remote_calls t = []
             ∨ ∃ id, entry w mapping_path name = Some id ∧ truthy id = true
                     ∧ remote_calls t = [FilesDelete id])) as Hall.
  {
    unfold delete_file_from_drive, bind.
    destruct (get_file_id_run w mapping_path name) as (t0 & -> & Ht0).
    destruct (entry w mapping_path name) as [id|] eqn:Hentry; cbn.
    2: { split_and!; [done | done |]. left. by rewrite remote_calls_app, Ht0. }
    destruct (truthy id) eqn:Hid; cbn.
    2: { split_and!; [done | done |]. left. by rewrite remote_calls_app, Ht0. }
    unfold try, bind, log, emit, execute. cbn.
    destruct (service _ _) as [[e|v] s1]; cbn.
    - destruct (is_HttpError e); cbn; (split_and!; [done | done |]); right; exists id;
        by rewrite remote_calls_app, Ht0.
    - destruct (remove_file_mapping mapping_path name (set_remote s1 w))
        as [[[e|[]] w1] t1] eqn:Hrm;
        apply remove_file_mapping_frame in Hrm as [(_ & _ & _ & Hfs) Ht1]; cbn.
      + destruct (is_HttpError e); cbn; (split_and!; [done | exact Hfs |]); right; exists id;
          rewrite remote_calls_app, Ht0; cbn; by rewrite !remote_calls_app, Ht1.
      + split_and!; [done | exact Hfs |]. right. exists id.
        rewrite remote_calls_app, Ht0. cbn. by rewrite !remote_calls_app, Ht1.
}
  by rewrite Hrun in Hall.
Qed.

(** X18. Whatever the inputs, [delete_file_from_drive] returns without
    raising, changes no file but the mapping document, and sends either
    nothing or the one delete call on the identifier recorded for the
    name. *)
Theorem delete_sends_at_most_one_delete service mapping_path name w :
  let '(r, w', t) := delete_file_from_drive service mapping_path name w in
  r = inr tt
  ∧ (∀ p, p ≠ mapping_path → fs w' !! p = fs w !! p)
  ∧ (remote_calls t = []
     ∨ ∃ id, entry w mapping_path name = Some id ∧ truthy id = true
             ∧ remote_calls t = [FilesDelete id]).
Proof.
  destruct (delete_file_from_drive service mapping_path name w) as [[r w'] t] eqn:Hrun.
  by apply (delete_file_from_drive_frame _ _ _ _ _ _ _ Hrun).
Qed.

(** A delete of a name for which the mapping document gives nothing
    that counts as an identifier: nothing is sent and nothing changes. *)
Lemma delete_file_from_drive_untracked service mapping_path name w :
  truthy (default None_ (entry w mapping_path name)) = false →
  ∃ t, delete_file_from_drive service mapping_path name w = (inr tt, w, t)
       ∧ remote_calls t = []
       ∧ last t = Some (Log WARNING (NotFoundInDriveMapping name)).
Proof.
  intros Hid. unfold delete_file_from_drive, bind.
  destruct (get_file_id_run w mapping_path name) as (t0 & -> & Ht0).
  rewrite Hid. cbn. eexists. split_and!; [reflexivity | |].
  - by rewrite remote_calls_app, Ht0.
  - by rewrite last_app.
Qed.

(** A delete of a recorded name sends the delete call on the recorded
    identifier and no other call, whatever comes of it. *)
Lemma delete_file_from_drive_sends service mapping_path name w id :
  entry w mapping_path name = Some id → truthy id = true →
  ∃ w' t, delete_file_from_drive service mapping_path name w = (inr tt, w', t)
          ∧ remote_calls t = [FilesDelete id].
Proof.
  intros Hentry Hid.
  destruct (delete_file_from_drive service mapping_path name w) as [[r w'] t] eqn:Hrun.
  pose proof (delete_file_from_drive_frame _ _ _ _ _ _ _ Hrun) as (-> & _ & Hcalls).
  exists w', t. split; [done |].
  destruct Hcalls as [Hnone | (id' & Hentry' & _ & Hcalls)].
  - exfalso. revert Hrun. unfold delete_file_from_drive, bind.
    destruct (get_file_id_run w mapping_path name) as (t0 & -> & Ht0).
    rewrite Hentry. cbn. rewrite Hid. cbn.
    unfold try, bind, log, emit, execute. cbn.
    destruct (service _ _) as [[e|v] s1]; cbn.
    + destruct (is_HttpError e); cbn; intros [= _ <-];
        rewrite remote_calls_app in Hnone; cbn in Hnone;
        by apply app_eq_nil in Hnone as [_ ?].
    + destruct (remove_file_mapping mapping_path name (set_remote s1 w))
        as [[[e|[]] w1] t1]; cbn; [destruct (is_HttpError e); cbn |];
        intros [= _ <-]; rewrite remote_calls_app in Hnone; cbn in Hnone;
        by apply app_eq_nil in Hnone as [_ ?].
  - rewrite Hentry in Hentry'. by injection Hentry' as <-.
Qed.

(** X19. An upload of a new file followed by the delete of its name
    sends the create call and then the delete call on the identifier the
    create returned, and leaves the mapping document holding what it held
    before the upload. *)
Theorem upload_then_delete_restores_mapping
    service folder_id mapping_path file_path w c m file id s1 v s2 :
  let name := basename file_path in
  let media := {| filename := file_path; body := c |} in
  connected w = true →
  fs w !! file_path = Some c → readable c →
  stored_mapping w mapping_path = Some m → m !! name = None →
  writable w mapping_path →
  service (create_file name folder_id media) (remote w) = (inr (JObj file), s1) →
  file !! "id" = Some id → truthy id = true →
  service (FilesDelete id) s1 = (inr v, s2) →
  ∃ w1 t1 w2 t2,
    upload_file service folder_id mapping_path file_path w = (inr tt, w1, t1)
    ∧ delete_file_from_drive service mapping_path name w1 = (inr tt, w2, t2)
    ∧ remote_calls (t1 ++ t2) = [create_file name folder_id media; FilesDelete id]
    ∧ mapping_at w2 mapping_path = Some m.
Proof.
  intros name media Hup Hc Hread Hm Hnone Hw Hcreate Hfid Hid Hdelete.
  destruct (upload_file_records service folder_id mapping_path file_path w c m file s1)
    as (t1 & Hrun1 & Hcalls1); try done.
  fold name in Hrun1. rewrite Hfid in Hrun1. cbn in Hrun1.
  set (w1 := set_fs (insert mapping_path (Json (JObj (<[name := id]> m))))
               (set_remote s1 w)) in *.
  destruct (delete_file_from_drive_ok service mapping_path name w1 (<[name := id]> m) id v s2)
    as (t2 & Hrun2 & Hcalls2 & _); try done.
  - unfold mapping_at. subst w1. cbn. by rewrite lookup_insert_eq.
  - apply lookup_insert_eq.
  - subst w1. apply writable_after_write; [|done].
    destruct Hw as [Hro Hdir]. by split.
  - eexists w1, t1, _, t2. split_and!; [done | exact Hrun2 | |].
    + by rewrite remote_calls_app, Hcalls1, Hcalls2.
    + unfold mapping_at. cbn. rewrite lookup_insert_eq.
      by rewrite delete_insert_eq, delete_id.
Qed.

End sync_extras.

(** * Further properties of the event reconciler *)

Section watcher_extras.
Import Watcher.
Context {S : Type}.
Variable json_text : value → string.
Implicit Types (w : World S) (self : Watcher.t (S:=S)) (ev : event).

#[local] Arguments get_or_create_drive_folder : simpl never.
#[local] Arguments upload_file : simpl never.
#[local] Arguments delete_file_from_drive : simpl never.

(** X20. An event of any kind whose subject is a directory does
    nothing: the world is unchanged and nothing is sent, read or logged. *)
Theorem directory_event_ignored self ev w :
  is_directory ev = true →
  dispatch self ev w = (inr tt, w, []).
Proof.
  intros Hdir. unfold dispatch, on_created, on_modified, on_deleted, on_moved.
  rewrite Hdir. by destruct (kind ev).
Qed.

Lemma append_assoc (a b c : string) :
  ((a ++ b) ++ c = a ++ (b ++ c))%string.
Proof.
  induction a as [|x a IH]; [done |].
  change (String x ((a ++ b) ++ c) = String x (a ++ (b ++ c)))%string.
  by rewrite IH.
Qed.

Lemma contains_trans (p q s : string) :
  contains p q = true → contains q s = true → contains p s = true.
Proof.
  rewrite !contains_spec. intros (a & b & ->) (a' & b' & ->).
  exists (a' ++ a)%string, (b ++ b')%string.
  by rewrite !append_assoc.
Qed.

(** The two markers of [on_moved] come down to the second. *)
Lemma in_trash_Trash (dest : string) :
  contains "/.local/share/Trash" dest || contains "/Trash" dest = contains "/Trash" dest.
Proof.
  destruct (contains "/Trash" dest) eqn:Hshort; [apply orb_true_r |].
  rewrite orb_false_r. destruct (contains "/.local/share/Trash" dest) eqn:Hlong; [|done].
  rewrite <- Hshort. symmetry.
  by apply (contains_trans "/Trash" "/.local/share/Trash").
Qed.

(** What the handler of a [moved] event on a file comes to. *)
Lemma on_moved_run self ev :
  kind ev = moved →
  is_directory ev = false →
  dispatch self ev
  = if contains "/Trash" (default "" (dest_path ev))
    then delete_file_from_drive (service self) (mapping_path self) (basename (src_path ev))
    else ret tt.
Proof.
  intros Hkind Hfile. unfold dispatch, on_moved. rewrite Hkind, Hfile.
  by rewrite in_trash_Trash.
Qed.

(** X22. The test of [on_moved] comes down to its second marker.  For a
    [moved] event on a file whose source base name the mapping document
    records with an identifier: the delete call on that identifier is
    sent exactly when the destination path has [/Trash] somewhere in it
    (so also for a directory named, say, [Trashcan]); otherwise nothing
    is sent, read or changed. *)
Theorem moved_is_deletion_iff_Trash self ev w id :
  kind ev = moved →
  is_directory ev = false →
  entry w (mapping_path self) (basename (src_path ev)) = Some id →
  truthy id = true →
  let dest := default "" (dest_path ev) in
  ∃ w' t,
    dispatch self ev w = (inr tt, w', t)
    ∧ (remote_calls t = [FilesDelete id] ↔ ∃ a b, dest = (a ++ "/Trash" ++ b)%string)
    ∧ ((¬ ∃ a b, dest = (a ++ "/Trash" ++ b)%string) → w' = w ∧ t = []).
Proof.
  intros Hkind Hfile Hentry Hid dest.
  rewrite (on_moved_run self ev Hkind Hfile). fold dest.
  destruct (contains "/Trash" dest) eqn:Hmarker.
  - destruct (delete_file_from_drive_sends (service self) _ _ w id Hentry Hid)
      as (w' & t & -> & Hcalls).
    apply contains_spec in Hmarker.
    exists w', t. split_and!; [done | by split | done].
  - exists w, []. split_and!; [done | | done].
    split; [done |]. intros Htrash. apply contains_spec in Htrash. congruence.
Qed.

(** C10. For every [moved] event on a subject that is no directory.
    When the destination path has a trash marker in it, the handler does
    the delete of the base name of the source path and nothing else: the
    run returns, no file but the mapping document changes, and the remote
    calls are the one delete call on the identifier recorded for that
    name, or none at all (with the world unchanged) when the mapping
    document gives none; when the service carries out the delete and the
    mapping document can be written, the document is left holding the
    mapping without that name.  When the destination path has no trash
    marker, the handler returns at once: the world is as it was and
    nothing was sent, read or written. *)
Theorem moved_event_policy self ev w :
  kind ev = moved →
  is_directory ev = false →
  let dest := default "" (dest_path ev) in
  let name := basename (src_path ev) in
  let path := mapping_path self in
  (in_trash dest →
     (∃ w' t,
        dispatch self ev w = (inr tt, w', t)
        ∧ (∀ p, p ≠ path → fs w' !! p = fs w !! p)
        ∧ (∀ id, entry w path name = Some id → truthy id = true →
             remote_calls t = [FilesDelete id])
        ∧ (truthy (default None_ (entry w path name)) = false →
             remote_calls t = [] ∧ w' = w))
     ∧ (∀ m id v s1,
          mapping_at w path = Some m → m !! name = Some id → truthy id = true →
          service self (FilesDelete id) (remote w) = (inr v, s1) →
          writable w path →
          ∃ t, dispatch self ev w
               = (inr tt,
                  set_fs (insert path (Json (JObj (delete name m)))) (set_remote s1 w), t)
               ∧ remote_calls t = [FilesDelete id]))
  ∧ (¬ in_trash dest → dispatch self ev w = (inr tt, w, [])).
Proof.
  intros Hkind Hfile dest name path.
  rewrite (on_moved_run self ev Hkind Hfile). fold dest name path.
  rewrite <- in_trash_spec, in_trash_Trash.
  split; intros Htrash; [rewrite Htrash | by destruct (contains "/Trash" dest)].
  split.
  - destruct (delete_file_from_drive (service self) path name w) as [[r w'] t] eqn:Hrun.
    pose proof (delete_file_from_drive_frame _ _ _ _ _ _ _ Hrun) as (-> & Hfs & _).
    exists w', t. split_and!; [done | done | |].
    + intros id Hentry Hid.
      destruct (delete_file_from_drive_sends (service self) path name w id Hentry Hid)
        as (w1 & t1 & Hrun1 & Hcalls).
      rewrite Hrun in Hrun1. by injection Hrun1 as _ <-.
    + intros Hnone.
      destruct (delete_file_from_drive_untracked (service self) path name w Hnone)
        as (t1 & Hrun1 & Hcalls & _).
      rewrite Hrun in Hrun1. by injection Hrun1 as <- <-.
  - intros m id v s1 Hm Hmn Hid Hreply Hw.
    destruct (delete_file_from_drive_ok (service self) path name w m id v s1)
      as (t & Hrun & Hcalls & _); eauto.
Qed.

Lemma bind_ok {A B} (m : M S A) (k : A → M S B) w a w1 t1 :
  m w = (inr a, w1, t1) →
  bind m k w = (let '(r, w2, t2) := k a w1 in (r, w2, t1 ++ t2)).
Proof. unfold bind. by intros ->. Qed.


(** The first part of [get_or_create_folder_id] on a document that gives
    no identifier: what follows it runs in the same world. *)
Lemma cache_miss_run self w (rest : M S (value * t)) :
  uncached json_text w (folder_id_file self) →
  ∃ t0, remote_calls t0 = [] ∧
    (let* present := path_exists (folder_id_file self) in
     let* cached :=
       (if present then
          try (let* f := open_read (folder_id_file self) in
               let* text := lift (read json_text f) in
               let folder_id := JStr (utf8_encode (strip text)) in
               if truthy folder_id then ret (Some folder_id) else ret None)
              (fun e => log ERROR (FailedToReadFolderId e);; ret None)
        else ret None) in
     match cached with
     | Some folder_id => ret (folder_id, set_folder_id folder_id self)
     | None => rest
     end) w
    = (let '(r, w2, t2) := rest w in (r, w2, t0 ++ t2)).
Proof.
  intros Hmiss. unfold uncached in Hmiss.
  unfold bind, try, path_exists, open_read, lift, log, emit, ret.
  destruct (fs w !! folder_id_file self) as [c|] eqn:Hc; cbn; rewrite ?Hc; cbn.
  2: { destruct (rest w) as [[r w2] t2]. by exists [PathExists (folder_id_file self)]. }
  specialize (Hmiss c).
  destruct c as [| | | s | j]; cbn -[decode] in Hmiss |- *.
  1-3: by (eexists [PathExists (folder_id_file self); OpenRead (folder_id_file self);
                    Log ERROR (FailedToReadFolderId _)];
           split; [done |]; destruct (rest w) as [[r w2] t2]).
  all: destruct (decode _) as [e|text] eqn:Hread; cbn;
    [ exists [PathExists (folder_id_file self); OpenRead (folder_id_file self);
              Log ERROR (FailedToReadFolderId e)]
    | rewrite (Hmiss text eq_refl eq_refl); cbn;
      exists [PathExists (folder_id_file self); OpenRead (folder_id_file self)] ];
    (split; [done |]); by destruct (rest w) as [[r w2] t2].
Qed.

Lemma cache_miss_resolves self w :
  uncached json_text w (folder_id_file self) →
  ∃ t0, remote_calls t0 = [] ∧
    get_or_create_folder_id json_text self w
    = (let '(r, w2, t2) :=
         (let* folder_id :=
            get_or_create_drive_folder (service self) (basename (watch_folder self)) in
          if truthy folder_id then
            try (makedirs (base_dir self);;
                 open_write (folder_id_file self);;
                 write (folder_id_file self) folder_id;;
                 ret (folder_id, set_folder_id folder_id self))
                (fun e => log ERROR (FailedToSaveFolderId e);; ret (folder_id, self))
          else ret (folder_id, self)) w in
       (r, w2, t0 ++ t2)).
Proof. intros Hmiss. unfold get_or_create_folder_id. by apply cache_miss_run. Qed.

(** The last part of [get_or_create_folder_id], which stores a resolved
    identifier: it never raises; the attribute is set only when the
    document holds the identifier. *)
Lemma persist_run self v w :
  ∃ self1 w1 t1,
    try (makedirs (base_dir self);;
         open_write (folder_id_file self);;
         write (folder_id_file self) v;;
         ret (v, set_folder_id v self))
        (fun e => log ERROR (FailedToSaveFolderId e);; ret (v, self)) w
    = (inr (v, self1), w1, t1)
    ∧ remote_calls t1 = []
    ∧ ((self1 = self ∧ ∃ e, last t1 = Some (Log ERROR (FailedToSaveFolderId e)))
       ∨ ∃ s, v = JStr s ∧ self1 = set_folder_id v self
              ∧ fs w1 !! folder_id_file self = Some (Text s))
    ∧ (folder_id_file self ∈ readonly w →
       self1 = self ∧ last t1 = Some (Log ERROR (FailedToSaveFolderId OSError))
       ∧ (base_dir self ≠ folder_id_file self →
          fs w1 !! folder_id_file self = fs w !! folder_id_file self)).
Proof.
  unfold try, bind, makedirs, open_write, write, log, emit, ret.
  repeat (case_match; simplify_eq/=);
    repeat match goal with
      | H : bool_decide _ = false |- _ => apply bool_decide_eq_false in H
      | H : bool_decide _ = true |- _ => apply bool_decide_eq_true in H
      end;
    (eexists _, _, _; split; [reflexivity |]; split; [done |]; split;
     [ first [ left; split; [done |]; by eexists
             | right; eexists; split_and!; [done | done |]; cbn; by rewrite lookup_insert_eq ]
     | intros Hro;
       first [ done
             | split; [done |]; split; [done |]; intros Hne; cbn;
               by rewrite ?lookup_insert_ne ] ]).
Qed.

(** X25. When the container-identity document gives no identifier
    (missing, unreadable or blank) and the remote resolve returns [v],
    [get_or_create_folder_id] returns [v] without raising, and its remote
    calls are those of the resolve.  The attribute [folder_id] is set only
    when [v] is a string that the document then holds; for a [v] that
    counts as absent nothing is written at all. *)
Theorem resolver_without_cache_returns_resolve_result self w v w' t :
  uncached json_text w (folder_id_file self) →
  get_or_create_drive_folder (service self) (basename (watch_folder self)) w
    = (inr v, w', t) →
  ∃ self1 w1 t1,
    get_or_create_folder_id json_text self w = (inr (v, self1), w1, t1)
    ∧ remote_calls t1 = remote_calls t
    ∧ (self1 = self
       ∨ ∃ s, v = JStr s ∧ self1 = set_folder_id v self
              ∧ fs w1 !! folder_id_file self = Some (Text s))
    ∧ (truthy v = false → self1 = self ∧ w1 = w').
Proof.
  intros Hmiss Hresolve.
  destruct (cache_miss_resolves self w Hmiss) as (t0 & Ht0 & ->).
  rewrite (bind_ok _ _ _ _ _ _ Hresolve).
  destruct (truthy v) eqn:Hv.
  - destruct (persist_run self v w') as (self1 & w1 & t1 & -> & Ht1 & Hself & _).
    eexists self1, w1, _. split_and!; [reflexivity | | | done].
    + by rewrite !remote_calls_app, Ht0, Ht1, app_nil_r.
    + destruct Hself as [[-> _] | ?]; eauto.
  - eexists self, w', _. split_and!; [reflexivity | | by left | done].
    by rewrite !remote_calls_app, Ht0, app_nil_r.
Qed.

(** X26. When the resolved identifier cannot be stored because the
    container-identity document may not be written,
    [get_or_create_folder_id] still returns the identifier, but leaves the
    attribute [folder_id] as it was and the document untouched; its last
    log line is the "failed to save folder ID" error. *)
Theorem resolver_persist_failure_keeps_attribute self w v w' t :
  uncached json_text w (folder_id_file self) →
  get_or_create_drive_folder (service self) (basename (watch_folder self)) w
    = (inr v, w', t) →
  truthy v = true →
  folder_id_file self ∈ readonly w →
  ∃ w1 t1,
    get_or_create_folder_id json_text self w = (inr (v, self), w1, t1)
    ∧ remote_calls t1 = remote_calls t
    ∧ last t1 = Some (Log ERROR (FailedToSaveFolderId OSError))
    ∧ (base_dir self ≠ folder_id_file self →
       fs w1 !! folder_id_file self = fs w !! folder_id_file self).
Proof.
  intros Hmiss Hresolve Hv Hro.
  destruct (cache_miss_resolves self w Hmiss) as (t0 & Ht0 & ->).
  rewrite (bind_ok _ _ _ _ _ _ Hresolve). rewrite Hv.
  destruct (get_or_create_drive_folder_local _ _ _ _ _ _ Hresolve) as [s1 ->].
  destruct (persist_run self v (set_remote s1 w)) as (self1 & w1 & t1 & -> & Ht1 & _ & Hfail).
  destruct (Hfail Hro) as (-> & Hlast & Hfs).
  eexists w1, _. split_and!; [reflexivity | | | done].
  - by rewrite !remote_calls_app, Ht0, Ht1, app_nil_r.
  - rewrite !last_app, Hlast. done.
Qed.




(** What handling one event does to the files and sends to the service. *)
Lemma dispatch_frame self ev w r w' t :
  dispatch self ev w = (r, w', t) →
  (∀ p, p ≠ mapping_path self → fs w' !! p = fs w !! p)
  ∧ (remote_calls t = []
     ∨ match kind ev with
       | created | modified =>
           (∃ m, remote_calls t
                 = [create_file (basename (src_path ev)) (folder_id self) m])
           ∨ (∃ id m, remote_calls t = [FilesUpdate id m])
       | deleted | moved =>
           ∃ id, entry w (mapping_path self) (basename (src_path ev)) = Some id
                 ∧ remote_calls t = [FilesDelete id]
       end).
Proof.
  unfold dispatch, on_created, on_modified, on_deleted, on_moved, ret.
  destruct (kind ev); destruct (is_directory ev);
    try (intros [= <- <- <-]; by split; [|left]);
    repeat match goal with
      | |- context [if ?b then _ else _] => destruct b
      end;
    try (intros [= <- <- <-]; by split; [|left]);
    intros Hrun.
  - apply upload_file_frame in Hrun as [Hfs Hcalls]. split; [done |]. tauto.
  - apply upload_file_frame in Hrun as [Hfs Hcalls]. split; [done |]. tauto.
  - apply delete_file_from_drive_frame in Hrun as (_ & Hfs & Hcalls).
    split; [done |]. destruct Hcalls as [? | (id & ? & _ & ?)]; eauto.
  - apply delete_file_from_drive_frame in Hrun as (_ & Hfs & Hcalls).
    split; [done |]. destruct Hcalls as [? | (id & ? & _ & ?)]; eauto.
Qed.

(** X23. Handling one event changes no file but the mapping document
    and sends at most one remote call: a create or an update for a
    [created] or [modified] event, a delete on the recorded identifier for
    a [deleted] or [moved] event. *)
Theorem event_sends_at_most_one_call self ev w :
  let '(_, w', t) := dispatch self ev w in
  (∀ p, p ≠ mapping_path self → fs w' !! p = fs w !! p)
  ∧ (remote_calls t = []
     ∨ match kind ev with
       | created | modified =>
           (∃ m, remote_calls t
                 = [create_file (basename (src_path ev)) (folder_id self) m])
           ∨ (∃ id m, remote_calls t = [FilesUpdate id m])
       | deleted | moved =>
           ∃ id, entry w (mapping_path self) (basename (src_path ev)) = Some id
                 ∧ remote_calls t = [FilesDelete id]
       end).
Proof.
  destruct (dispatch self ev w) as [[r w'] t] eqn:Hrun.
  by apply (dispatch_frame _ _ _ _ _ _ Hrun).
Qed.

(** One event makes at most one remote call. *)
Lemma dispatch_calls self ev w r w' t :
  dispatch self ev w = (r, w', t) → (length (remote_calls t) ≤ 1)%nat.
Proof.
  intros Hrun. apply dispatch_frame in Hrun as [_ [-> | Hcalls]]; [cbn; lia |].
  destruct (kind ev).
  - destruct Hcalls as [[? ->] | (? & ? & ->)]; cbn; lia.
  - destruct Hcalls as [[? ->] | (? & ? & ->)]; cbn; lia.
  - destruct Hcalls as (? & _ & ->). cbn; lia.
  - destruct Hcalls as (? & _ & ->). cbn; lia.
Qed.

(** X24. Over any sequence of events, the handlers change no file but
    the mapping document and send at most as many remote calls as there
    are events. *)
Theorem watch_loop_keeps_files self evs w :
  let '(_, w', t) := deliver self evs w in
  (∀ p, p ≠ mapping_path self → fs w' !! p = fs w !! p)
  ∧ (length (remote_calls t) ≤ length evs)%nat.
Proof.
  revert w. induction evs as [|ev evs IH]; intros w; [by cbn |].
  cbn [deliver]. unfold bind.
  destruct (dispatch self ev w) as [[[e|[]] w1] t1] eqn:Hrun;
    pose proof (dispatch_calls _ _ _ _ _ _ Hrun) as Hlen;
    apply dispatch_frame in Hrun as [Hfs _].
  - split; [done |]. cbn [length]. lia.
  - specialize (IH w1). destruct (deliver self evs w1) as [[r w2] t2].
    destruct IH as [Hfs2 Hlen2]. split.
    + intros p Hp. by rewrite Hfs2, Hfs.
    + rewrite remote_calls_app, length_app. cbn [length]. lia.
Qed.

End watcher_extras.

(** * The list query, read as the service reads it *)

Section query_facts.
Import Query.

Lemma after_append (p s : string) : after p (p ++ s) = Some s.
Proof.
  induction p as [|c p IH]; [by destruct s |].
  change (after (String c p) (String c (p ++ s)) = Some s). cbn.
  by rewrite Ascii.eqb_refl.
Qed.

(** A plain value is read back up to the quote that closes it. *)
Lemma quoted_plain (v rest : string) :
  plain v = true → quoted (v ++ String "'" rest) = Some (v, rest).
Proof.
  induction v as [|c v IH]; [done |].
  change (String c v ++ String "'" rest)%string with (String c (v ++ String "'" rest)).
  cbn. intros [[Hquote Hslash]%andb_prop Hv]%andb_prop.
  apply negb_true_iff in Hquote, Hslash. rewrite Hquote, Hslash, (IH Hv). done.
Qed.

Lemma conditions_tail (fuel : nat) :
  conditions (Datatypes.S (Datatypes.S fuel))
    "mimeType='application/vnd.google-apps.folder' and trashed=false"
  = Some [MimeType "application/vnd.google-apps.folder"; Trashed false].
Proof. reflexivity. Qed.

(** One condition followed by others. *)
Lemma conditions_and (fuel : nat) (q : string) (c : condition) (q' : string) :
  condition_at q = Some (c, (" and " ++ q')%string) →
  conditions (Datatypes.S fuel) q = cons c <$> conditions fuel q'.
Proof.
  intros Hhead. cbn [conditions]. rewrite Hhead.
  change (" and " ++ q')%string with (String " " ("and " ++ q')) at 1.
  cbv iota. by rewrite after_append.
Qed.

(** X30. The query of the list call, read as the service reads it.  For
    a container name free of quotes and backslashes, it asks for the
    objects of exactly that name that are folders and are not trashed.
    For a name with a quote behind such a part, the value of its first
    condition ends at that quote: the name asked for is the part before
    the quote, and what follows the quote in the name is left to be read
    as query text. *)
Theorem folder_query_asks_for_name (a b : string) :
  plain a = true →
  parse (folder_query a)
  = Some [Name a; MimeType "application/vnd.google-apps.folder"; Trashed false]
  ∧ condition_at (folder_query (a ++ "'" ++ b))
    = Some (Name a,
            (b ++ "' and mimeType='application/vnd.google-apps.folder' and trashed=false")%string).
Proof.
  intros Ha.
  set (tail := "mimeType='application/vnd.google-apps.folder' and trashed=false").
  assert (∀ rest, condition_at ("name='" ++ a ++ String "'" rest) = Some (Name a, rest))
    as Hhead.
  { intros rest. unfold condition_at. rewrite after_append, (quoted_plain a rest Ha). done. }
  split.
  - unfold parse.
    change (folder_query a) with ("name='" ++ a ++ String "'" (" and " ++ tail))%string.
    rewrite (length_append "name='"). cbn [String.length Nat.add].
    rewrite (conditions_and _ _ (Name a) tail (Hhead _)).
    by rewrite conditions_tail.
  - unfold folder_query. rewrite !append_assoc.
    change ("'" ++ ?x)%string with (String "'" x).
    apply Hhead.
Qed.
End query_facts.

(** * The further properties on the demonstration worlds *)

Section extra_runs.
Import Watcher.

Lemma save_then_get_round_trip_witness :
  let w := world true [("/app/file_map.json", Json (JObj two_entries))] in
  ∃ w1 t1,
    save_file_mapping "/app/file_map.json" "todo.txt" (JStr "id789") w = (inr tt, w1, t1)
    ∧ (∃ t, get_file_id "/app/file_map.json" "todo.txt" w1 = (inr (JStr "id789"), w1, t))
    ∧ ∀ other, other ≠ "todo.txt" →
        ∃ t t', get_file_id "/app/file_map.json" other w1
                  = (inr (default None_ (two_entries !! other)), w1, t)
                ∧ get_file_id "/app/file_map.json" other w
                  = (inr (default None_ (two_entries !! other)), w, t').
Proof.
  apply (save_then_get_round_trip
           (world true [("/app/file_map.json", Json (JObj two_entries))])
           "/app/file_map.json" "todo.txt" (JStr "id789") two_entries).
  - vm_compute. reflexivity.
  - apply world_writable. vm_compute. discriminate.
Defined.

Lemma save_write_failure_is_swallowed_witness :
  let w := world_with_readonly true [("/app/file_map.json", Json (JObj two_entries))]
             ["/app/file_map.json"] in
  ∃ t, save_file_mapping "/app/file_map.json" "report.txt" (JStr "id999") w = (inr tt, w, t)
       ∧ last t = Some (Log ERROR (FailedToWriteMapping OSError))
       ∧ ∃ t', get_file_id "/app/file_map.json" "report.txt" w
               = (inr (default None_ (two_entries !! "report.txt")), w, t').
Proof.
  apply (save_write_failure_is_swallowed
           (world_with_readonly true [("/app/file_map.json", Json (JObj two_entries))]
              ["/app/file_map.json"])
           "/app/file_map.json" "report.txt" (JStr "id999") two_entries).
  - vm_compute. reflexivity.
  - vm_compute. reflexivity.
Defined.


Lemma remove_deletes_only_that_entry_witness :
  let w := world true [("/app/file_map.json", Json (JObj two_entries))] in
  ∃ w1 t1,
    remove_file_mapping "/app/file_map.json" "report.txt" w = (inr tt, w1, t1)
    ∧ mapping_at w1 "/app/file_map.json" = Some (delete "report.txt" two_entries)
    ∧ (∃ t, get_file_id "/app/file_map.json" "report.txt" w1 = (inr None_, w1, t))
    ∧ (∀ other, other ≠ "report.txt" →
         entry w1 "/app/file_map.json" other = entry w "/app/file_map.json" other)
    ∧ same_but "/app/file_map.json" w w1.
Proof.
  apply (remove_deletes_only_that_entry
           (world true [("/app/file_map.json", Json (JObj two_entries))])
           "/app/file_map.json" "report.txt" two_entries).
  - vm_compute. reflexivity.
  - exists (JStr "id123"). vm_compute. reflexivity.
  - apply world_writable. vm_compute. discriminate.
Defined.

Lemma remove_untracked_writes_nothing_witness :
  let w := world true [("/app/file_map.json", Json (JObj two_entries))] in
  ∃ r t, remove_file_mapping "/app/file_map.json" "todo.txt" w = (r, w, t)
         ∧ (r = inr tt
            ∨ (r = inl TypeError
               ∧ ∃ j, fs w !! "/app/file_map.json" = Some (Json j)
                      ∧ mapping_at w "/app/file_map.json" = None)).
Proof.
  apply (remove_untracked_writes_nothing
           (world true [("/app/file_map.json", Json (JObj two_entries))])
           "/app/file_map.json" "todo.txt").
  vm_compute. reflexivity.
Defined.

Lemma save_twice_is_last_save_witness :
  let w := world true [] in
  ∃ w1 t1 w2 t2 t,
    save_file_mapping "/app/file_map.json" "report.txt" (JStr "id1") w = (inr tt, w1, t1)
    ∧ save_file_mapping "/app/file_map.json" "report.txt" (JStr "id2") w1 = (inr tt, w2, t2)
    ∧ save_file_mapping "/app/file_map.json" "report.txt" (JStr "id2") w = (inr tt, w2, t).
Proof.
  apply (save_twice_is_last_save (world true []) "/app/file_map.json" "report.txt"
           (JStr "id1") (JStr "id2") ∅).
  - vm_compute. reflexivity.
  - apply world_writable. vm_compute. discriminate.
Defined.

Lemma resolve_raises_on_folder_without_id_witness :
  get_or_create_drive_folder drive_with_nameless_folder "w" (world true [])
  = (inl KeyError, set_remote 0 (world true []), [Remote (list_folders "w")]).
Proof.
  apply (resolve_raises_on_folder_without_id drive_with_nameless_folder "w" (world true [])
           {["files" := JArr [JObj {["name" := JStr "w"]}]]} {["name" := JStr "w"]} [] 0).
  - reflexivity.
  - vm_compute. reflexivity.
  - vm_compute. reflexivity.
Defined.

Lemma upload_failed_create_changes_nothing_witness :
  let w := world true [("/w/report.txt", Text "v1")] in
  let media := {| filename := "/w/report.txt"; body := Text "v1" |} in
  ∃ t, upload_file (failing_drive (HttpError 500)) (JStr "folder1") "/app/file_map.json"
         "/w/report.txt" w = (inr tt, set_remote 0 w, t)
       ∧ remote_calls t = [create_file "report.txt" (JStr "folder1") media]
       ∧ last t = Some (Log ERROR (ErrorDuringUpload (HttpError 500))).
Proof.
  apply (upload_failed_create_changes_nothing (failing_drive (HttpError 500))
           (JStr "folder1") "/app/file_map.json" "/w/report.txt"
           (world true [("/w/report.txt", Text "v1")]) (Text "v1") (HttpError 500) 0).
  - reflexivity.
  - vm_compute. reflexivity.
  - by split.
  - vm_compute. reflexivity.
  - reflexivity.
Defined.

Lemma upload_reply_without_id_creates_again_witness :
  let w := world true [("/w/report.txt", Text "v1")] in
  let media := {| filename := "/w/report.txt"; body := Text "v1" |} in
  ∃ w1 t1,
    upload_file drive_without_ids (JStr "folder1") "/app/file_map.json" "/w/report.txt" w
      = (inr tt, w1, t1)
    ∧ remote_calls t1 = [create_file "report.txt" (JStr "folder1") media]
    ∧ entry w1 "/app/file_map.json" "report.txt" = Some None_
    ∧ ∀ w2 c2,
        connected w2 = true →
        fs w2 !! "/app/file_map.json" = fs w1 !! "/app/file_map.json" →
        fs w2 !! "/w/report.txt" = Some c2 → readable c2 →
        ∃ w3 t2,
          upload_file drive_without_ids (JStr "folder1") "/app/file_map.json"
            "/w/report.txt" w2 = (inr tt, w3, t2)
          ∧ remote_calls t2
            = [create_file "report.txt" (JStr "folder1")
                 {| filename := "/w/report.txt"; body := c2 |}].
Proof.
  exact (upload_reply_without_id_creates_again drive_without_ids (JStr "folder1")
           "/app/file_map.json" "/w/report.txt"
           (world true [("/w/report.txt", Text "v1")]) (Text "v1") ∅ ∅ 1
           eq_refl ltac:(vm_compute; reflexivity) ltac:(by split)
           ltac:(vm_compute; reflexivity) ltac:(vm_compute; reflexivity)
           ltac:(apply world_writable; vm_compute; discriminate)
           eq_refl eq_refl).
Defined.

Lemma upload_with_unwritable_mapping_forgets_witness :
  let w := world_with_readonly true [("/w/report.txt", Text "v1")]
             ["/app/file_map.json"] in
  let media := {| filename := "/w/report.txt"; body := Text "v1" |} in
  ∃ t, upload_file memory_drive (JStr "folder1") "/app/file_map.json" "/w/report.txt" w
         = (inr tt, set_remote 1 w, t)
       ∧ remote_calls t = [create_file "report.txt" (JStr "folder1") media]
       ∧ Log ERROR (FailedToWriteMapping OSError) ∈ t
       ∧ last t = Some (Log INFO (Uploaded "report.txt"))
       ∧ entry (set_remote 1 w) "/app/file_map.json" "report.txt" = None.
Proof.
  apply (upload_with_unwritable_mapping_forgets memory_drive (JStr "folder1")
           "/app/file_map.json" "/w/report.txt"
           (world_with_readonly true [("/w/report.txt", Text "v1")]
              ["/app/file_map.json"])
           (Text "v1") ∅ {["id" := JStr "id0"]} 1).
  - reflexivity.
  - vm_compute. reflexivity.
  - by split.
  - vm_compute. reflexivity.
  - vm_compute. reflexivity.
  - vm_compute. reflexivity.
  - vm_compute. reflexivity.
Defined.

Lemma delete_keeps_other_entries_witness :
  let w := world true [("/app/file_map.json", Json (JObj two_entries))] in
  ∃ w1 t,
    delete_file_from_drive memory_drive "/app/file_map.json" "report.txt" w
      = (inr tt, w1, t)
    ∧ remote_calls t = [FilesDelete (JStr "id123")]
    ∧ mapping_at w1 "/app/file_map.json" = Some (delete "report.txt" two_entries)
    ∧ (∀ other, other ≠ "report.txt" →
         entry w1 "/app/file_map.json" other = entry w "/app/file_map.json" other)
    ∧ (∀ p, p ≠ "/app/file_map.json" → fs w1 !! p = fs w !! p)
    ∧ last t = Some (Log INFO (DeletedFromDrive "report.txt")).
Proof.
  apply (delete_keeps_other_entries memory_drive "/app/file_map.json" "report.txt"
           (world true [("/app/file_map.json", Json (JObj two_entries))])
           two_entries (JStr "id123") (JStr "") 0).
  - vm_compute. reflexivity.
  - vm_compute. reflexivity.
  - reflexivity.
  - reflexivity.
  - apply world_writable. vm_compute. discriminate.
Defined.

Lemma same_base_name_updates_same_object_witness :
  let w := world true [("/w/a/report.txt", Text "one"); ("/w/b/report.txt", Text "two")] in
  let media := {| filename := "/w/a/report.txt"; body := Text "one" |} in
  ∃ w1 t1 w2 t2,
    upload_file memory_drive (JStr "folder1") "/app/file_map.json" "/w/a/report.txt" w
      = (inr tt, w1, t1)
    ∧ upload_file memory_drive (JStr "folder1") "/app/file_map.json" "/w/b/report.txt" w1
      = (inr tt, w2, t2)
    ∧ remote_calls (t1 ++ t2)
      = [create_file "report.txt" (JStr "folder1") media;
         FilesUpdate (JStr "id0") {| filename := "/w/b/report.txt"; body := Text "two" |}]
    ∧ mapping_at w2 "/app/file_map.json" = Some (<["report.txt" := JStr "id0"]> ∅).
Proof.
  apply (same_base_name_updates_same_object memory_drive (JStr "folder1")
           "/app/file_map.json" "/w/a/report.txt" "/w/b/report.txt"
           (world true [("/w/a/report.txt", Text "one"); ("/w/b/report.txt", Text "two")])
           (Text "one") (Text "two") ∅ {["id" := JStr "id0"]} (JStr "id0") 1).
  - reflexivity.
  - reflexivity.
  - vm_compute. reflexivity.
  - by split.
  - vm_compute. reflexivity.
  - by split.
  - discriminate.
  - vm_compute. reflexivity.
  - vm_compute. reflexivity.
  - apply world_writable. vm_compute. discriminate.
  - reflexivity.
  - vm_compute. reflexivity.
  - reflexivity.
Defined.

Lemma upload_then_delete_restores_mapping_witness :
  let w := world true [("/w/report.txt", Text "v1");
                       ("/app/file_map.json", Json (JObj {["notes.txt" := JStr "id456"]}))] in
  let media := {| filename := "/w/report.txt"; body := Text "v1" |} in
  ∃ w1 t1 w2 t2,
    upload_file memory_drive (JStr "folder1") "/app/file_map.json" "/w/report.txt" w
      = (inr tt, w1, t1)
    ∧ delete_file_from_drive memory_drive "/app/file_map.json" "report.txt" w1
      = (inr tt, w2, t2)
    ∧ remote_calls (t1 ++ t2)
      = [create_file "report.txt" (JStr "folder1") media; FilesDelete (JStr "id0")]
    ∧ mapping_at w2 "/app/file_map.json" = Some {["notes.txt" := JStr "id456"]}.
Proof.
  apply (upload_then_delete_restores_mapping memory_drive (JStr "folder1")
           "/app/file_map.json" "/w/report.txt"
           (world true [("/w/report.txt", Text "v1");
                        ("/app/file_map.json",
                         Json (JObj {["notes.txt" := JStr "id456"]}))])
           (Text "v1") {["notes.txt" := JStr "id456"]} {["id" := JStr "id0"]}
           (JStr "id0") 1 (JStr "") 1).
  - reflexivity.
  - vm_compute. reflexivity.
  - by split.
  - vm_compute. reflexivity.
  - vm_compute. reflexivity.
  - apply world_writable. vm_compute. discriminate.
  - reflexivity.
  - vm_compute. reflexivity.
  - reflexivity.
  - reflexivity.
Defined.

Lemma directory_event_ignored_witness :
  let w := world true [("/w/photos", Directory)] in
  dispatch (watcher memory_drive) folder_created w = (inr tt, w, []).
Proof.
  apply (directory_event_ignored (watcher memory_drive) folder_created
           (world true [("/w/photos", Directory)])).
  reflexivity.
Defined.

Lemma hidden_file_event_dropped_witness :
  let w := world true [("/w/.hidden", Text "secret")] in
  dispatch (watcher memory_drive) hidden_modified w = (inr tt, w, []).
Proof.
  apply (hidden_file_event_dropped (watcher memory_drive) hidden_modified
           (world true [("/w/.hidden", Text "secret")])).
  - discriminate.
  - by exists "hidden".
Defined.

(** A tracked file moved into a directory named [Trashcan], and the same
    file renamed in place. *)
Lemma moved_is_deletion_iff_Trash_witness :
  let self := watcher memory_drive in
  let w := world true [(mapping_path self, Json (JObj two_entries))] in
  (∃ w' t,
     dispatch self report_to_trashcan w = (inr tt, w', t)
     ∧ (remote_calls t = [FilesDelete (JStr "id123")]
        ↔ ∃ a b, "/w/Trashcan/report.txt" = (a ++ "/Trash" ++ b)%string)
     ∧ ((¬ ∃ a b, "/w/Trashcan/report.txt" = (a ++ "/Trash" ++ b)%string)
        → w' = w ∧ t = []))
  ∧ (∃ w' t,
       dispatch self report_renamed w = (inr tt, w', t)
       ∧ (remote_calls t = [FilesDelete (JStr "id123")]
          ↔ ∃ a b, "/w/report-final.txt" = (a ++ "/Trash" ++ b)%string)
       ∧ ((¬ ∃ a b, "/w/report-final.txt" = (a ++ "/Trash" ++ b)%string)
          → w' = w ∧ t = [])).
Proof.
  cbv zeta. split.
  - exact (moved_is_deletion_iff_Trash (watcher memory_drive) report_to_trashcan
             (world true [(mapping_path (watcher memory_drive), Json (JObj two_entries))])
             (JStr "id123") eq_refl eq_refl ltac:(vm_compute; reflexivity) eq_refl).
  - exact (moved_is_deletion_iff_Trash (watcher memory_drive) report_renamed
             (world true [(mapping_path (watcher memory_drive), Json (JObj two_entries))])
             (JStr "id123") eq_refl eq_refl ltac:(vm_compute; reflexivity) eq_refl).
Defined.

(** A tracked file moved to the trash, and the same file renamed in
    place. *)
Lemma moved_event_policy_witness :
  let self := watcher memory_drive in
  let doc := Json (JObj {["report.txt" := JStr "id123"]}) in
  let w := world true [(mapping_path self, doc)] in
  (∃ t, dispatch self report_to_trash w
        = (inr tt,
           set_fs (insert (mapping_path self)
                     (Json (JObj (delete "report.txt" {["report.txt" := JStr "id123"]}))))
             (set_remote 0 w), t)
        ∧ remote_calls t = [FilesDelete (JStr "id123")])
  ∧ dispatch self report_renamed w = (inr tt, w, []).
Proof.
  cbv zeta.
  pose (w := world true [(mapping_path (watcher memory_drive),
                          Json (JObj {["report.txt" := JStr "id123"]}))]).
  split.
  - destruct (moved_event_policy (watcher memory_drive) report_to_trash w eq_refl eq_refl)
      as [Htrash _].
    destruct (Htrash ltac:(apply in_trash_spec; reflexivity)) as [_ Hdeleted].
    apply (Hdeleted {["report.txt" := JStr "id123"]} (JStr "id123") (JStr "") 0).
    + vm_compute. reflexivity.
    + vm_compute. reflexivity.
    + reflexivity.
    + reflexivity.
    + apply world_writable. vm_compute. discriminate.
  - apply (proj2 (moved_event_policy (watcher memory_drive) report_renamed w
                    eq_refl eq_refl)).
    intros Htrash. apply in_trash_spec in Htrash. discriminate Htrash.
Defined.

Lemma upload_file_unreadable_raises_witness :
  let w := world true [("/w/photos", Directory)] in
  upload_file memory_drive (JStr "folder1") "/app/file_map.json" "/w/photos" w
  = (inl OSError, w,
     [Log INFO CheckingConnectivity; Probe; Log INFO ConnectionDetected;
      OpenRead "/w/photos"]).
Proof.
  apply (upload_file_unreadable_raises memory_drive (JStr "folder1") "/app/file_map.json"
           "/w/photos" (world true [("/w/photos", Directory)])).
  - reflexivity.
  - intros c Hc [Hdir _]. vm_compute in Hc. injection Hc as <-. by apply Hdir.
Defined.

Lemma upload_file_readable_returns_witness :
  ∃ w' t,
    upload_file (failing_drive (OtherError "boom")) (JStr "folder1")
      "/app/file_map.json" "/w/report.txt"
      (world true [("/w/report.txt", Text "v1"); ("/app/file_map.json", Binary)])
    = (inr tt, w', t).
Proof.
  apply (upload_file_readable_returns (failing_drive (OtherError "boom")) (JStr "folder1")
           "/app/file_map.json" "/w/report.txt"
           (world true [("/w/report.txt", Text "v1"); ("/app/file_map.json", Binary)])
           (Text "v1")).
  - vm_compute. reflexivity.
  - by split.
Defined.

Lemma world_uncached up files locked file :
  (list_to_map files : gmap string content) !! file = None →
  uncached no_text (world_with_readonly up files locked) file.
Proof. intros Hnone c s Hc. cbn in Hc. by rewrite Hnone in Hc. Qed.

Lemma resolver_without_cache_returns_resolve_result_witness :
  let self := watcher memory_drive in
  let w := world true [(folder_id_file self, Binary)] in
  ∃ self1 w1 t1,
    get_or_create_folder_id no_text self w = (inr (JStr "id0", self1), w1, t1)
    ∧ remote_calls t1 = [list_folders "w"; create_folder "w"]
    ∧ (self1 = self
       ∨ ∃ s, JStr "id0" = JStr s ∧ self1 = set_folder_id (JStr "id0") self
              ∧ fs w1 !! folder_id_file self = Some (Text s))
    ∧ (truthy (JStr "id0") = false → self1 = self ∧ w1 = set_remote 1 w).
Proof.
  refine (resolver_without_cache_returns_resolve_result no_text (watcher memory_drive)
            (world true [(folder_id_file (watcher memory_drive), Binary)])
            (JStr "id0")
            (set_remote 1 (world true [(folder_id_file (watcher memory_drive), Binary)]))
            [Remote (list_folders "w"); Remote (create_folder "w");
             Log INFO (CreatedNewFolder "w" (JStr "id0"))] _ _).
  - intros c s Hc Hread. vm_compute in Hc. injection Hc as <-. discriminate Hread.
  - vm_compute. reflexivity.
Defined.

Lemma resolver_persist_failure_keeps_attribute_witness :
  let self := watcher memory_drive in
  let w := world_with_readonly true [] [folder_id_file self] in
  ∃ w1 t1,
    get_or_create_folder_id no_text self w = (inr (JStr "id0", self), w1, t1)
    ∧ remote_calls t1 = [list_folders "w"; create_folder "w"]
    ∧ last t1 = Some (Log ERROR (FailedToSaveFolderId OSError))
    ∧ (base_dir self ≠ folder_id_file self →
       fs w1 !! folder_id_file self = fs w !! folder_id_file self).
Proof.
  refine (resolver_persist_failure_keeps_attribute no_text (watcher memory_drive)
            (world_with_readonly true [] [folder_id_file (watcher memory_drive)])
            (JStr "id0")
            (set_remote 1
               (world_with_readonly true [] [folder_id_file (watcher memory_drive)]))
            [Remote (list_folders "w"); Remote (create_folder "w");
             Log INFO (CreatedNewFolder "w" (JStr "id0"))] _ _ _ _).
  - apply world_uncached. vm_compute. reflexivity.
  - vm_compute. reflexivity.
  - reflexivity.
  - vm_compute. reflexivity.
Defined.


(** The query for the folder [w], and the query for a folder [it's]. *)
Lemma folder_query_asks_for_name_witness :
  Query.parse (folder_query "w")
  = Some [Query.Name "w"; Query.MimeType "application/vnd.google-apps.folder";
          Query.Trashed false]
  ∧ Query.condition_at (folder_query "w's")
    = Some (Query.Name "w",
            "s' and mimeType='application/vnd.google-apps.folder' and trashed=false").
Proof. exact (folder_query_asks_for_name "w" "s" eq_refl). Defined.

End extra_runs.
